(** * NistCrawler: the pagination, extraction, ranking and CSV pipeline

    A shallow embedding of [NistCrawler_v0.2.3.py] ([scrape_nist_cve] and
    [output_to_csv]) together with the Python built-ins the script relies on
    ([str.split], [int], [float], true division, [math.ceil], [list.sort],
    [urllib.parse.quote], the [csv] writer), followed by the properties of
    the pipeline.

    Conventions.
    - A Python [str] is a [string]; characters are code points below 256.
    - A Python [float] is an IEEE-754 binary64 value, [spec_float] with
      [prec = 53] and [emax = 1024].
    - A raised exception is the [Raise] case of [result]; printing and file
      writing are recorded in an explicit [state].
    - Failures of the network and of the file system are left out: every
      request is answered and every file is written. *)

From Stdlib Require Import ZArith List String Ascii Bool Lia.
From Stdlib Require Import Permutation Sorted.
From Stdlib Require Import Floats.SpecFloat.
Import ListNotations.

Local Open Scope string_scope.
Local Open Scope Z_scope.

(* ================================================================== *)
(** * Part I. The model                                                *)
(* ================================================================== *)

(** ** Exceptions *)

Inductive exn : Type :=
| IndexError
| ValueError
| AttributeError
| KeyError
| OverflowError
| ZeroDivisionError.

Inductive result (A : Type) : Type :=
| Ok (a : A)
| Raise (e : exn).
Arguments Ok {A} a.
Arguments Raise {A} e.

Definition bind {A B} (r : result A) (k : A -> result B) : result B :=
  match r with
  | Ok a => k a
  | Raise e => Raise e
  end.

Declare Scope py_scope.
Delimit Scope py_scope with py.
Notation "x <- c ;; k" := (bind c (fun x => k))
  (at level 61, c at next level, right associativity) : py_scope.

(** ** Strings *)

Module PyStr.

(** [str.isspace] on a single character (code points below 256). *)
Definition is_space (c : ascii) : bool :=
  let n := nat_of_ascii c in
  ((9 <=? n) && (n <=? 13) || (28 <=? n) && (n <=? 32)
   || (n =? 133) || (n =? 160))%nat.

Definition is_digit (c : ascii) : bool :=
  let n := nat_of_ascii c in ((48 <=? n) && (n <=? 57))%nat.

Definition digit_val (c : ascii) : Z := Z.of_nat (nat_of_ascii c) - 48.

Definition is_empty (s : string) : bool :=
  match s with EmptyString => true | String _ _ => false end.

Fixpoint lstrip_by (p : ascii -> bool) (s : string) : string :=
  match s with
  | String c r => if p c then lstrip_by p r else s
  | EmptyString => EmptyString
  end.

Fixpoint rstrip_by (p : ascii -> bool) (s : string) : string :=
  match s with
  | String c r =>
      let r' := rstrip_by p r in
      if p c && is_empty r' then EmptyString else String c r'
  | EmptyString => EmptyString
  end.

(** [s.strip()] *)
Definition strip (s : string) : string :=
  rstrip_by is_space (lstrip_by is_space s).

(** [sub in s] *)
Fixpoint contains (sub s : string) : bool :=
  prefix sub s ||
  match s with
  | String _ r => contains sub r
  | EmptyString => false
  end.

(** [s.split(sep)] for a non-empty separator: cut at the leftmost
    occurrences, scanning left to right.  [skip] counts the characters of
    a matched separator still to be dropped. *)
Fixpoint split_go (sep : string) (skip : nat) (s : string)
  : string * list string :=
  match s with
  | EmptyString => (EmptyString, [])
  | String c r =>
      match skip with
      | S k => split_go sep k r
      | O =>
          if prefix sep s
          then (EmptyString,
                let '(seg, rest) := split_go sep (String.length sep - 1) r in
                seg :: rest)
          else let '(seg, rest) := split_go sep 0 r in (String c seg, rest)
      end
  end.

Definition split (sep s : string) : list string :=
  let '(seg, rest) := split_go sep 0 s in seg :: rest.

(** [s.split()]: maximal runs of non-whitespace characters. *)
Fixpoint split_ws_go (s : string) : string * list string :=
  match s with
  | EmptyString => (EmptyString, [])
  | String c r =>
      let '(tok, rest) := split_ws_go r in
      if is_space c
      then (EmptyString, if is_empty tok then rest else tok :: rest)
      else (String c tok, rest)
  end.

Definition split_ws (s : string) : list string :=
  let '(tok, rest) := split_ws_go s in
  if is_empty tok then rest else tok :: rest.

(** [s.replace(c, by)] for a one-character pattern [c]. *)
Fixpoint replace (c : ascii) (by_ : string) (s : string) : string :=
  match s with
  | EmptyString => EmptyString
  | String d r =>
      if Ascii.eqb d c then by_ ++ replace c by_ r
      else String d (replace c by_ r)
  end.

Fixpoint repeat_char (c : ascii) (n : nat) : string :=
  match n with
  | O => EmptyString
  | S k => String c (repeat_char c k)
  end.

(** The format specification [:<n]: pad on the right with spaces up to
    width [n]; longer strings are left untouched. *)
Definition ljust (n : nat) (s : string) : string :=
  s ++ repeat_char " " (n - String.length s).

(** [s[:n]] and [s[n:]] *)
Definition take (n : nat) (s : string) : string := substring 0 n s.
Definition drop (n : nat) (s : string) : string :=
  substring n (String.length s - n) s.

Definition lower_char (c : ascii) : ascii :=
  let n := nat_of_ascii c in
  if ((65 <=? n) && (n <=? 90))%nat then ascii_of_nat (n + 32) else c.

Fixpoint lower (s : string) : string :=
  match s with
  | EmptyString => EmptyString
  | String c r => String (lower_char c) (lower r)
  end.

(** [l[i]] on a list, raising [IndexError] out of range. *)
Definition subscript {A} (l : list A) (i : nat) : result A :=
  match nth_error l i with
  | Some a => Ok a
  | None => Raise IndexError
  end.

End PyStr.

(** ** Numbers *)

Module PyNum.
Import PyStr.

Definition prec : Z := 53.
Definition emax : Z := 1024.

(** The blanks [int] and [float] skip around a literal: unlike
    [str.isspace] they leave out the separators U+001C to U+001F. *)
Definition is_num_space (c : ascii) : bool :=
  let n := nat_of_ascii c in
  ((9 <=? n) && (n <=? 13) || (n =? 32) || (n =? 133) || (n =? 160))%nat.

Definition num_strip (s : string) : string :=
  rstrip_by is_num_space (lstrip_by is_num_space s).

(** A [digitpart] of the numeric grammar: decimal digits, single
    underscores allowed between two digits.  Returns the value read so
    far, the number of digits and the unread suffix. *)
Fixpoint digits_go (s : string) (v n : Z) : Z * Z * string :=
  match s with
  | String c r =>
      if is_digit c then digits_go r (10 * v + digit_val c) (n + 1)
      else if Ascii.eqb c "_" then
        match r with
        | String d _ => if is_digit d then digits_go r v n else (v, n, s)
        | EmptyString => (v, n, s)
        end
      else (v, n, s)
  | EmptyString => (v, n, s)
  end.

Definition digitpart (s : string) (v : Z) : option (Z * Z * string) :=
  match s with
  | String c _ => if is_digit c then Some (digits_go s v 0) else None
  | EmptyString => None
  end.

Definition split_sign (s : string) : bool * string :=
  match s with
  | String c r =>
      if Ascii.eqb c "-" then (true, r)
      else if Ascii.eqb c "+" then (false, r)
      else (false, s)
  | EmptyString => (false, s)
  end.

(** [int(s)] in base 10; [None] stands for [ValueError]. *)
Definition py_int (s : string) : option Z :=
  let '(neg, body) := split_sign (num_strip s) in
  match digitpart body 0 with
  | Some (v, _, EmptyString) => Some (if neg then - v else v)
  | _ => None
  end.

(** The decimal [M * 10^E] rounded to the nearest binary64 value, ties to
    even; overflow gives an infinity, underflow a zero. *)
Definition round_decimal (neg : bool) (M E : Z) : spec_float :=
  if M =? 0 then S754_zero neg
  else if 0 <=? E then
    binary_normalize prec emax (if neg then - (M * 10 ^ E) else M * 10 ^ E)
                     0 false
  else
    let '(q, e, l) := SFdiv_core_binary prec emax M 0 (10 ^ (- E)) 0 in
    binary_round_aux prec emax neg q e l.

(** [floatnumber]: [[digitpart] "." digitpart | digitpart ["."]] followed
    by an optional exponent [("e"|"E") [sign] digitpart]; the whole string
    must be consumed.  Returns mantissa and decimal exponent. *)
Definition parse_exponent (s : string) : option Z :=
  match s with
  | EmptyString => Some 0
  | String c r =>
      if Ascii.eqb (lower_char c) "e" then
        let '(neg, body) := split_sign r in
        match digitpart body 0 with
        | Some (v, _, EmptyString) => Some (if neg then - v else v)
        | _ => None
        end
      else None
  end.

Definition parse_fraction (ip : Z) (s : string) (need : bool)
  : option (Z * Z) :=
  match digitpart s ip with
  | Some (v, n, rest) =>
      match parse_exponent rest with
      | Some x => Some (v, x - n)
      | None => None
      end
  | None =>
      if need then None
      else match parse_exponent s with
           | Some x => Some (ip, x)
           | None => None
           end
  end.

Definition parse_decimal (s : string) : option (Z * Z) :=
  match s with
  | String c r =>
      if Ascii.eqb c "." then parse_fraction 0 r true
      else
        match digitpart s 0 with
        | Some (v, _, String d r') =>
            if Ascii.eqb d "." then parse_fraction v r' false
            else match parse_exponent (String d r') with
                 | Some x => Some (v, x)
                 | None => None
                 end
        | Some (v, _, EmptyString) => Some (v, 0)
        | None => None
        end
  | EmptyString => None
  end.

(** [float(s)]; [None] stands for [ValueError]. *)
Definition py_float (s : string) : option spec_float :=
  let '(neg, body) := split_sign (num_strip s) in
  let low := lower body in
  if String.eqb low "inf" || String.eqb low "infinity"
  then Some (S754_infinity neg)
  else if String.eqb low "nan" then Some S754_nan
  else match parse_decimal body with
       | Some (M, E) => Some (round_decimal neg M E)
       | None => None
       end.

(** [a / b] on integers: the exact quotient rounded to nearest. *)
Definition true_div (a b : Z) : result spec_float :=
  if b =? 0 then Raise ZeroDivisionError
  else if a =? 0 then Ok (S754_zero (b <? 0))
  else
    let neg := xorb (a <? 0) (b <? 0) in
    let '(q, e, l) := SFdiv_core_binary prec emax (Z.abs a) 0 (Z.abs b) 0 in
    match binary_round_aux prec emax neg q e l with
    | S754_infinity _ => Raise OverflowError
    | x => Ok x
    end.

(** [math.ceil(x)] *)
Definition ceil (x : spec_float) : result Z :=
  match x with
  | S754_zero _ => Ok 0
  | S754_infinity _ => Raise OverflowError
  | S754_nan => Raise ValueError
  | S754_finite s m e =>
      let v := if s then Z.neg m else Z.pos m in
      Ok (if 0 <=? e then v * 2 ^ e else - ((- v) / 2 ^ (- e)))
  end.

(** [bool(x)]: every float but the two zeros is true. *)
Definition truthy (x : spec_float) : bool :=
  match x with
  | S754_zero _ => false
  | _ => true
  end.

Definition is_nan (x : spec_float) : bool :=
  match x with
  | S754_nan => true
  | _ => false
  end.

(** [x < y], [x >= y] and [x == y] on floats. *)
Definition float_lt (x y : spec_float) : bool := SFltb x y.
Definition float_ge (x y : spec_float) : bool := SFleb y x.
Definition float_eq (x y : spec_float) : bool := SFeqb x y.

(** A float literal of the script, [n / 10^k]. *)
Definition literal (n k : Z) : spec_float := round_decimal false n (- k).

(** *** [str(x)]

    Integers print in decimal.  A float prints as the shortest decimal
    digit string that [float] reads back as the same value (the closest
    one to the value when several have that length), in positional
    notation when the decimal point falls within the first 16 digits and
    not more than 3 zeros precede the digits, in exponent notation
    otherwise. *)

Fixpoint dec_go (fuel : nat) (n : Z) (acc : string) : string :=
  match fuel with
  | O => acc
  | S f =>
      let acc' := String (ascii_of_nat (48 + Z.to_nat (n mod 10))) acc in
      if n <? 10 then acc' else dec_go f (n / 10) acc'
  end.

Definition dec (n : Z) : string := dec_go (S (Z.to_nat (Z.log2 n))) n "".

Definition int_str (n : Z) : string :=
  if n <? 0 then "-" ++ dec (- n) else dec n.

(** [N / D < 10^L] on positive integers [N], [D]. *)
Definition below_pow10 (N D L : Z) : bool :=
  if 0 <=? L then N <? D * 10 ^ L else N * 10 ^ (- L) <? D.

Fixpoint find_decpt (fuel : nat) (N D L : Z) : Z :=
  match fuel with
  | O => L
  | S f => if below_pow10 N D L then L else find_decpt f N D (L + 1)
  end.

(** The least [L] with [N / D < 10^L].  The search starts below it, at
    an under-estimate of [log10 (N / D)] obtained from the bit lengths
    ([0.30102 < log10 2 < 0.30103]), and needs at most 4 steps. *)
Definition decpt (N D : Z) : Z :=
  let k := Z.log2 N - Z.log2 D - 1 in
  let L0 := (if 0 <=? k then k * 30102 else k * 30103) / 100000 - 1 in
  find_decpt 8 N D L0.

(** [(N / D) / 10^k] as a fraction. *)
Definition scaled (N D k : Z) : Z * Z :=
  if 0 <=? k then (N, D * 10 ^ k) else (N * 10 ^ (- k), D).

Definition same_float (x y : spec_float) : bool :=
  match x, y with
  | S754_zero a, S754_zero b => Bool.eqb a b
  | S754_infinity a, S754_infinity b => Bool.eqb a b
  | S754_nan, S754_nan => true
  | S754_finite a m e, S754_finite b n f =>
      Bool.eqb a b && Pos.eqb m n && (e =? f)
  | _, _ => false
  end.

(** The integer [c] next to [(N / D) / 10^k] for which [c * 10^k] reads
    back as [x], the nearer one if both neighbours do. *)
Definition candidate (x : spec_float) (N D k : Z) : option Z :=
  let '(a, b) := scaled N D k in
  let lo := a / b in
  let r := a mod b in
  let ok c := same_float (round_decimal false c k) x in
  if ok lo then
    if ok (lo + 1) && (b <? 2 * r) then Some (lo + 1) else Some lo
  else if ok (lo + 1) then Some (lo + 1) else None.

(** Try [n], [n + 1], ... significant digits; 17 always suffice. *)
Fixpoint shortest (fuel : nat) (n : Z) (x : spec_float) (N D dp : Z)
  : Z * Z :=
  match fuel with
  | O => (let '(a, b) := scaled N D (dp - n) in a / b, dp - n)
  | S f =>
      match candidate x N D (dp - n) with
      | Some c => (c, dp - n)
      | None => shortest f (n + 1) x N D dp
      end
  end.

Fixpoint drop_zeros (fuel : nat) (c k : Z) : Z * Z :=
  match fuel with
  | O => (c, k)
  | S f =>
      if (0 <? c) && (c mod 10 =? 0) then drop_zeros f (c / 10) (k + 1)
      else (c, k)
  end.

Definition format_repr (neg : bool) (c k : Z) : string :=
  let ds := dec c in
  let nd := Z.of_nat (String.length ds) in
  let dp := nd + k in
  let body :=
    if (dp <=? -4) || (16 <? dp) then
      let x := dp - 1 in
      take 1 ds
      ++ (if 1 <? nd then "." ++ drop 1 ds else "")
      ++ "e" ++ (if x <? 0 then "-" else "+")
      ++ (if Z.abs x <? 10 then "0" else "") ++ dec (Z.abs x)
    else if dp <=? 0 then
      "0." ++ repeat_char "0" (Z.to_nat (- dp)) ++ ds
    else if dp <? nd then
      take (Z.to_nat dp) ds ++ "." ++ drop (Z.to_nat dp) ds
    else ds ++ repeat_char "0" (Z.to_nat (dp - nd)) ++ ".0"
  in
  if neg then "-" ++ body else body.

Definition float_str (x : spec_float) : string :=
  match x with
  | S754_nan => "nan"
  | S754_infinity s => if s then "-inf" else "inf"
  | S754_zero s => if s then "-0.0" else "0.0"
  | S754_finite s m e =>
      let N := if 0 <=? e then Z.pos m * 2 ^ e else Z.pos m in
      let D := if 0 <=? e then 1 else 2 ^ (- e) in
      let dp := decpt N D in
      let '(c, k) := shortest 17 1 (S754_finite false m e) N D dp in
      let '(c, k) := drop_zeros 20 c k in
      format_repr s c k
  end.

End PyNum.

(** ** The documents served by the search endpoint

    What the extractor sees of a parsed page is the outcome of its [find]
    look-ups, so a document is described by those: an element that [find]
    does not locate is [None], and the text of an element is what
    [get_text(strip=True)] returns for it. *)

Module Html.

(** An [<a>] element: its text and its [href] attribute, if it has one. *)
Record anchor : Type := {
  a_text : string;
  a_href : option string
}.

(** A [<tr data-testid="vuln-row-k">] element, through the four look-ups
    made inside it for slot [k]: the detail link, the summary paragraph,
    the [cvss3-link] span and the published-on span. *)
Record vuln_row : Type := {
  row_link : option anchor;
  row_summary : option string;
  row_cvss3 : option string;
  row_published : option string
}.

(** The rows of the results table in document order, each with the index
    [k] of its [data-testid]. *)
Definition results_table : Type := list (nat * vuln_row).

Record document : Type := {
  doc_count : option string;
  doc_table : option results_table
}.

Record response : Type := {
  status_code : Z;
  content : document
}.

(** [cve_table.find("tr", {"data-testid": f"vuln-row-{k}"})]: the first
    such row. *)
Fixpoint find_row (t : results_table) (k : nat) : option vuln_row :=
  match t with
  | [] => None
  | (j, r) :: t' => if Nat.eqb j k then Some r else find_row t' k
  end.

End Html.

(** ** The [csv] module, [excel] dialect

    Delimiter [,], quote character code 34, minimal quoting, doubled quotes,
    line terminator CR LF. *)

Module Csv.
Import PyStr.

Definition delimiter : ascii := ",".
Definition quotechar : ascii := "034".
Definition CR : ascii := "013".
Definition LF : ascii := "010".
Definition lineterminator : string := String CR (String LF EmptyString).

(** *** Writer *)

Definition special (c : ascii) : bool :=
  Ascii.eqb c delimiter || Ascii.eqb c quotechar
  || Ascii.eqb c CR || Ascii.eqb c LF.

Fixpoint any_special (s : string) : bool :=
  match s with
  | EmptyString => false
  | String c r => special c || any_special r
  end.

Fixpoint double_quotes (s : string) : string :=
  match s with
  | EmptyString => EmptyString
  | String c r =>
      if Ascii.eqb c quotechar
      then String quotechar (String quotechar (double_quotes r))
      else String c (double_quotes r)
  end.

Definition quoted (s : string) : string :=
  String quotechar (double_quotes s ++ String quotechar EmptyString).

Definition write_field (s : string) : string :=
  if any_special s then quoted s else s.

Fixpoint join_fields (fs : list string) : string :=
  match fs with
  | [] => EmptyString
  | [f] => write_field f
  | f :: fs' => write_field f ++ String delimiter (join_fields fs')
  end.

(** [writer.writerow(fs)]: the text appended to the file.  A record made
    of one empty field is written as an empty quoted field. *)
Definition writerow (fs : list string) : string :=
  match fs with
  | [EmptyString] => quoted EmptyString ++ lineterminator
  | _ => join_fields fs ++ lineterminator
  end.

Fixpoint writerows (rows : list (list string)) : string :=
  match rows with
  | [] => EmptyString
  | r :: rows' => writerow r ++ writerows rows'
  end.

(** *** Reader

    The parser is a state machine fed with the characters of each line of
    the file and an end-of-line signal after each line.  The file is
    opened with [newline=''], so a line ends after LF, after CR LF, or
    after a CR that no LF follows, and the line breaks stay in the
    lines.  The escape states are left out (the dialect has no escape
    character) and the field size limit is taken as lifted. *)

Inductive parser_state : Type :=
| START_RECORD
| START_FIELD
| IN_FIELD
| IN_QUOTED_FIELD
| QUOTE_IN_QUOTED_FIELD
| EAT_CRNL.

Record reader : Type := {
  rstate : parser_state;
  field : string;
  fields : list string
}.

Inductive event : Type :=
| Ch (c : ascii)
| EOL.

Definition parse_reset : reader :=
  {| rstate := START_RECORD; field := EmptyString; fields := [] |}.

Definition set_state (s : parser_state) (rd : reader) : reader :=
  {| rstate := s; field := field rd; fields := fields rd |}.

Definition parse_add_char (c : ascii) (rd : reader) : reader :=
  {| rstate := rstate rd;
     field := field rd ++ String c EmptyString;
     fields := fields rd |}.

Definition parse_save_field (rd : reader) : reader :=
  {| rstate := rstate rd;
     field := EmptyString;
     fields := fields rd ++ [field rd] |}.

Definition is_newline (ev : event) : bool :=
  match ev with
  | Ch c => Ascii.eqb c LF || Ascii.eqb c CR
  | EOL => false
  end.

Definition after_line (ev : event) : parser_state :=
  match ev with
  | EOL => START_RECORD
  | Ch _ => EAT_CRNL
  end.

Definition start_field (ev : event) (rd : reader) : reader :=
  match ev with
  | EOL => set_state START_RECORD (parse_save_field rd)
  | Ch c =>
      if is_newline ev then set_state EAT_CRNL (parse_save_field rd)
      else if Ascii.eqb c quotechar then set_state IN_QUOTED_FIELD rd
      else if Ascii.eqb c delimiter then parse_save_field rd
      else set_state IN_FIELD (parse_add_char c rd)
  end.

(** [parse_process_char]; [None] is [csv.Error]. *)
Definition parse_process_char (rd : reader) (ev : event) : option reader :=
  match rstate rd with
  | START_RECORD =>
      match ev with
      | EOL => Some rd
      | Ch _ =>
          if is_newline ev then Some (set_state EAT_CRNL rd)
          else Some (start_field ev (set_state START_FIELD rd))
      end
  | START_FIELD => Some (start_field ev rd)
  | IN_FIELD =>
      match ev with
      | EOL => Some (set_state START_RECORD (parse_save_field rd))
      | Ch c =>
          if is_newline ev then Some (set_state EAT_CRNL (parse_save_field rd))
          else if Ascii.eqb c delimiter
          then Some (set_state START_FIELD (parse_save_field rd))
          else Some (parse_add_char c rd)
      end
  | IN_QUOTED_FIELD =>
      match ev with
      | EOL => Some rd
      | Ch c =>
          if Ascii.eqb c quotechar
          then Some (set_state QUOTE_IN_QUOTED_FIELD rd)
          else Some (parse_add_char c rd)
      end
  | QUOTE_IN_QUOTED_FIELD =>
      match ev with
      | EOL => Some (set_state START_RECORD (parse_save_field rd))
      | Ch c =>
          if Ascii.eqb c quotechar
          then Some (set_state IN_QUOTED_FIELD (parse_add_char c rd))
          else if Ascii.eqb c delimiter
          then Some (set_state START_FIELD (parse_save_field rd))
          else if is_newline ev
          then Some (set_state EAT_CRNL (parse_save_field rd))
          else Some (set_state IN_FIELD (parse_add_char c rd))
      end
  | EAT_CRNL =>
      match ev with
      | EOL => Some (set_state START_RECORD rd)
      | Ch _ => if is_newline ev then Some rd else None
      end
  end.

(** A line ends after [c] when [c] is LF, when [c] is a CR that no LF
    follows, or when [c] is the last character of the file. *)
Definition line_ends (c : ascii) (rest : string) : bool :=
  match rest with
  | EmptyString => true
  | String d _ =>
      Ascii.eqb c LF || (Ascii.eqb c CR && negb (Ascii.eqb d LF))
  end.

(** At the end of the input a pending field or an open quoted field
    still makes a record. *)
Definition at_eof (rd : reader) : list (list string) :=
  match rstate rd with
  | IN_QUOTED_FIELD => [fields (parse_save_field rd)]
  | _ => if is_empty (field rd) then [] else [fields (parse_save_field rd)]
  end.

(** Iterating the reader over the text of a file: a record is returned
    each time an end of line leaves the parser in [START_RECORD]. *)
Fixpoint read_from (rd : reader) (s : string) : option (list (list string)) :=
  match s with
  | EmptyString => Some (at_eof rd)
  | String c rest =>
      match parse_process_char rd (Ch c) with
      | None => None
      | Some rd1 =>
          if line_ends c rest then
            match parse_process_char rd1 EOL with
            | None => None
            | Some rd2 =>
                match rstate rd2 with
                | START_RECORD =>
                    option_map (cons (fields rd2)) (read_from parse_reset rest)
                | _ => read_from rd2 rest
                end
            end
          else read_from rd1 rest
      end
  end.

Definition read (s : string) : option (list (list string)) :=
  read_from parse_reset s.

(** *** Notions for the proofs about the reader *)

Definition mk (s : parser_state) (f : string) (fs : list string) : reader :=
  {| rstate := s; field := f; fields := fs |}.

(** The state the parser is in after a written field. *)
Definition state_after (f : string) : parser_state :=
  if any_special f then QUOTE_IN_QUOTED_FIELD
  else if is_empty f then START_FIELD else IN_FIELD.

End Csv.

(** ** The script *)

Import PyStr PyNum Html.
Local Open Scope py_scope.

(** One entry of [all_vulns]: the dictionary built for a row. *)
Record vuln : Type := {
  cve_number : string;
  score : spec_float;
  description : string;
  published_date : string;
  url : string
}.

(** What the script prints, line by line. *)
Inductive message : Type :=
| MsgFailed (status : Z)       (* Failed to retrieve data from NIST ... *)
| MsgNoRecords                 (* No matching records found. *)
| MsgTotal (total : Z)         (* Total vulnerabilities found: ... *)
| MsgNoTable (page : Z)        (* No CVE results found on page ... *)
| MsgRowError (e : exn)        (* Error processing row: ... *)
| MsgTableHeader               (* the column titles and the rule *)
| MsgVuln (line : string)      (* one line of the table *)
| MsgWritten (filename : string).

(** The list under construction and the effects of a run so far: start
    offsets requested from the server, lines printed, files written (name
    and contents).  The request URL changes between requests only in its
    [startIndex], so the transport is a function of that offset. *)
Record state : Type := {
  all_vulns : list vuln;
  requests : list Z;
  console : list message;
  files : list (string * string)
}.

Definition initial : state :=
  {| all_vulns := []; requests := []; console := []; files := [] |}.

Definition get (start_index : Z) (st : state) : state :=
  {| all_vulns := all_vulns st;
     requests := requests st ++ [start_index];
     console := console st;
     files := files st |}.

Definition print (m : message) (st : state) : state :=
  {| all_vulns := all_vulns st;
     requests := requests st;
     console := console st ++ [m];
     files := files st |}.

Definition append (v : vuln) (st : state) : state :=
  {| all_vulns := all_vulns st ++ [v];
     requests := requests st;
     console := console st;
     files := files st |}.

Definition set_vulns (l : list vuln) (st : state) : state :=
  {| all_vulns := l;
     requests := requests st;
     console := console st;
     files := files st |}.

Definition write_file (name contents : string) (st : state) : state :=
  {| all_vulns := all_vulns st;
     requests := requests st;
     console := console st;
     files := files st ++ [(name, contents)] |}.

Definition results_per_page : Z := 20.

Definition marker : string := "V3.1:".

Definition not_available : string := "N/A".

(** [for a in l: body], stopping at the first exception that escapes. *)
Fixpoint for_each {A} (body : A -> state -> result state) (l : list A)
  (st : state) : result state :=
  match l with
  | [] => Ok st
  | a :: l' => st' <- body a st ;; for_each body l' st'
  end.

(** [range(n)] *)
Definition range (n : Z) : list Z := map Z.of_nat (seq 0 (Z.to_nat n)).

(** Lines 70 to 73: the CVSS 3.1 score of a row, [None] when the span or
    the marker is missing. *)
Definition extract_score (score_column : option string)
  : result (option spec_float) :=
  match score_column with
  | Some text =>
      if contains marker text then
        after <- subscript (split marker text) 1 ;;
        token <- subscript (split_ws after) 0 ;;
        match py_float token with
        | Some x => Ok (Some x)
        | None => Raise ValueError
        end
      else Ok None
  | None => Ok None
  end.

(** Lines 62 to 86, the body of the [try]: the record the row appends to
    [all_vulns], if any. *)
Definition extract_row (row : vuln_row) : result (option vuln) :=
  link <- match row_link row with
          | Some a =>
              match a_href a with
              | Some href => Ok (a_text a, "https://nvd.nist.gov" ++ href)
              | None => Raise KeyError
              end
          | None => Ok (not_available, not_available)
          end ;;
  summary <- match row_summary row with
             | Some text => Ok text
             | None => Raise AttributeError
             end ;;
  score_v3 <- extract_score (row_cvss3 row) ;;
  let published :=
    match row_published row with
    | Some text => text
    | None => not_available
    end in
  match score_v3 with
  | Some x =>
      if truthy x
      then Ok (Some {| cve_number := fst link;
                       score := x;
                       description := summary;
                       published_date := published;
                       url := snd link |})
      else Ok None
  | None => Ok None
  end.

(** [except (IndexError, ValueError, AttributeError)] *)
Definition caught (e : exn) : bool :=
  match e with
  | IndexError | ValueError | AttributeError => true
  | _ => false
  end.

(** Lines 56 to 90: one turn of the loop over the row slots. *)
Definition process_slot (cve_table : results_table) (row : nat) (st : state)
  : result state :=
  match find_row cve_table row with
  | None => Ok st
  | Some vuln_row =>
      match extract_row vuln_row with
      | Ok (Some v) => Ok (append v st)
      | Ok None => Ok st
      | Raise e =>
          if caught e then Ok (print (MsgRowError e) st) else Raise e
      end
  end.

(** Lines 43 to 90: one turn of the loop over the pages. *)
Definition process_page (fetch : Z -> response) (page : Z) (st : state)
  : result state :=
  let start_index := page * results_per_page in
  let st := get start_index st in
  match doc_table (content (fetch start_index)) with
  | None => Ok (print (MsgNoTable (page + 1)) st)
  | Some cve_table => for_each (process_slot cve_table) (seq 0 20) st
  end.

(** Line 39: [math.ceil(total_vulns / results_per_page)] *)
Definition num_pages_of (total_vulns : Z) : result Z :=
  q <- true_div total_vulns results_per_page ;; ceil q.

(** Line 93: [all_vulns.sort(key=lambda x: x['score'], reverse=True)].
    [list.sort] is stable, also with [reverse=True], and compares keys with
    [<] only.  On keys without NaN the outcome of a stable sort is
    determined, and it is the outcome of the insertion below
    ([stable_sort_unique]); so is the outcome on any list of at most two
    records. *)
Fixpoint insert_desc (v : vuln) (l : list vuln) : list vuln :=
  match l with
  | [] => [v]
  | w :: l' =>
      if float_lt (score v) (score w) then w :: insert_desc v l' else v :: l
  end.

Definition sort_desc (l : list vuln) : list vuln :=
  fold_right insert_desc [] l.

(** Line 100 *)
Definition truncated_desc (d : string) : string :=
  if (95 <? String.length d)%nat then take 95 d ++ "..." else d.

Definition ESC : string := String "027" EmptyString.

(** Lines 103 to 108 *)
Definition color (x : spec_float) : string :=
  if float_ge x (literal 70 1) then ESC ++ "[91m"
  else if float_ge x (literal 40 1) then ESC ++ "[93m"
  else ESC ++ "[92m".

(** Line 111 *)
Definition table_line (v : vuln) : string :=
  ljust 20 (cve_number v) ++ " "
  ++ color (score v) ++ ljust 8 (float_str (score v)) ++ ESC ++ "[0m" ++ " "
  ++ ljust 100 (truncated_desc (description v)) ++ " "
  ++ ljust 20 (published_date v) ++ " "
  ++ url v.

Definition fieldnames : list string :=
  ["cve_number"; "score"; "description"; "published_date"; "url"].

(** The cells [DictWriter.writerow] hands to the writer: the values in the
    order of [fieldnames], the float through [str]. *)
Definition cells (v : vuln) : list string :=
  [cve_number v; float_str (score v); description v; published_date v; url v].

Definition csv_filename (cpe_query : string) : string :=
  "./NistSearchResults/nist_cve_results_"
  ++ replace ":" "_" cpe_query ++ ".csv".

Definition csv_contents (vulns : list vuln) : string :=
  Csv.writerows (fieldnames :: map cells vulns).

(** Lines 117 to 134 *)
Definition output_to_csv (vulns : list vuln) (cpe_query : string) (st : state)
  : state :=
  let filename := csv_filename cpe_query in
  print (MsgWritten filename)
        (write_file filename (csv_contents vulns) st).

(** Lines 10 to 114 *)
Definition scrape_nist_cve (fetch : Z -> response) (cpe_query : string)
  : result state :=
  let st := get 0 initial in
  let response := fetch 0 in
  if negb (status_code response =? 200) then
    Ok (print (MsgFailed (status_code response)) st)
  else
    match doc_count (content response) with
    | None => Ok (print MsgNoRecords st)
    | Some text =>
        total_vulns <- match py_int (replace "," "" text) with
                       | Some n => Ok n
                       | None => Raise ValueError
                       end ;;
        let st := print (MsgTotal total_vulns) st in
        num_pages <- num_pages_of total_vulns ;;
        st <- for_each (process_page fetch) (range num_pages) st ;;
        let st := set_vulns (sort_desc (all_vulns st)) st in
        let st := print MsgTableHeader st in
        let st :=
          fold_left (fun st v => print (MsgVuln (table_line v)) st)
                    (all_vulns st) st in
        Ok (output_to_csv (all_vulns st) cpe_query st)
    end.

(** ** Notions used in the statements *)

(** The record a row slot of a table adds to [all_vulns], if any. *)
Definition slot_yield (cve_table : results_table) (row : nat) : list vuln :=
  match find_row cve_table row with
  | Some vuln_row =>
      match extract_row vuln_row with
      | Ok (Some v) => [v]
      | _ => []
      end
  | None => []
  end.

(** The records of one page, in slot order. *)
Definition page_yield (fetch : Z -> response) (page : Z) : list vuln :=
  match doc_table (content (fetch (page * results_per_page))) with
  | Some cve_table => flat_map (slot_yield cve_table) (seq 0 20)
  | None => []
  end.

(** The records of the first [n] pages, in extraction order. *)
Definition extracted (fetch : Z -> response) (n : Z) : list vuln :=
  flat_map (page_yield fetch) (range n).

(** Row [row] sits in slot [slot] of the table served for page [page]. *)
Definition served (fetch : Z -> response) (page : Z) (slot : nat)
  (row : vuln_row) : Prop :=
  exists cve_table,
    doc_table (content (fetch (page * results_per_page))) = Some cve_table
    /\ (slot < 20)%nat
    /\ find_row cve_table slot = Some row.

(** [score[i] >= score[i+1]] for every adjacent pair of the list. *)
Definition descending (l : list vuln) : Prop :=
  Sorted (fun a b => float_ge (score a) (score b) = true) l.

(** The records of [l] whose score equals [x], in the order of [l]. *)
Definition with_score (x : spec_float) (l : list vuln) : list vuln :=
  filter (fun v => float_eq (score v) x) l.


(** The state a run ends in once the pages are processed: lines 93 to 114. *)
Definition report (cpe_query : string) (st : state) : state :=
  let st := set_vulns (sort_desc (all_vulns st)) st in
  let st := print MsgTableHeader st in
  let st :=
    fold_left (fun st v => print (MsgVuln (table_line v)) st)
              (all_vulns st) st in
  output_to_csv (all_vulns st) cpe_query st.

(** No score of the list is NaN. *)
Definition no_nan (l : list vuln) : Prop :=
  Forall (fun v => is_nan (score v) = false) l.

(** The link and the summary of a row are extracted without an exception. *)
Definition fields_present (row : vuln_row) : Prop :=
  (row_link row = None
   \/ exists a href, row_link row = Some a /\ a_href a = Some href)
  /\ exists text, row_summary row = Some text.

(** A run either stops after the discovery request, or goes through the
    pages and the report. *)
Inductive run (fetch : Z -> response) (cpe_query : string) : state -> Prop :=
| RunFailed :
    status_code (fetch 0) <> 200 ->
    run fetch cpe_query
        (print (MsgFailed (status_code (fetch 0))) (get 0 initial))
| RunNoRecords :
    status_code (fetch 0) = 200 ->
    doc_count (content (fetch 0)) = None ->
    run fetch cpe_query (print MsgNoRecords (get 0 initial))
| RunComplete text total n st :
    status_code (fetch 0) = 200 ->
    doc_count (content (fetch 0)) = Some text ->
    py_int (replace "," "" text) = Some total ->
    num_pages_of total = Ok n ->
    for_each (process_page fetch) (range n)
             (print (MsgTotal total) (get 0 initial)) = Ok st ->
    run fetch cpe_query (report cpe_query st).

(** *** Rounding to binary64 *)



(** ** Servers used in the examples *)

Module Fixture.

Definition row_with (href : option string) (summary cvss3 : option string)
  : vuln_row :=
  {| row_link := Some {| a_text := "CVE-2024-0001"; a_href := href |};
     row_summary := summary;
     row_cvss3 := cvss3;
     row_published := Some "May 01, 2024" |}.

(** A well-formed row whose score span reads [V3.1:<sc> HIGH]. *)
Definition scored (sc : string) : vuln_row :=
  row_with (Some "/vuln/detail/CVE-2024-0001") (Some "A flaw, in a parser")
           (Some ("V3.1:" ++ sc ++ " HIGH")).

Fixpoint number (k : nat) (rows : list vuln_row) : results_table :=
  match rows with
  | [] => []
  | r :: rows' => (k, r) :: number (S k) rows'
  end.

(** A server that answers every request with status 200, the count
    [total] and the table [rows]. *)
Definition serve (total : string) (rows : option (list vuln_row))
  (start_index : Z) : response :=
  {| status_code := 200;
     content := {| doc_count := Some total;
                   doc_table := option_map (number 0) rows |} |}.

Definition query : string := "cpe:2.3:o:microsoft:windows".

(** Five well-formed rows with the scores 9.8, 7.1, 3.2, 6.5 and 0.1. *)
Definition five : Z -> response :=
  serve "5" (Some (map scored ["9.8"; "7.1"; "3.2"; "6.5"; "0.1"])).

(** A server that is down. *)
Definition unavailable (start_index : Z) : response :=
  {| status_code := 503;
     content := {| doc_count := None; doc_table := None |} |}.

(** A count of 0 and no table. *)
Definition empty_result : Z -> response := serve "0" None.

(** Counts of 41 and of 40, pages without a table. *)
Definition forty_one : Z -> response := serve "41" None.
Definition forty : Z -> response := serve "40" None.


(** A row whose link has no [href], then a well-formed row. *)
Definition no_href : Z -> response :=
  serve "2" (Some [row_with None (Some "A flaw, in a parser")
                            (Some "V3.1:9.8 CRITICAL");
                   scored "7.5"]).

(** A row without a summary paragraph, then a well-formed row. *)
Definition no_summary : results_table :=
  number 0 [row_with (Some "/vuln/detail/CVE-2024-0001") None
                     (Some "V3.1:9.8 CRITICAL");
            scored "7.5"].


End Fixture.

(** ** Notions for the further properties *)

(** The error line a row slot prints, if any. *)
Definition slot_messages (cve_table : results_table) (row : nat)
  : list message :=
  match find_row cve_table row with
  | Some vuln_row =>
      match extract_row vuln_row with
      | Raise e => if caught e then [MsgRowError e] else []
      | Ok _ => []
      end
  | None => []
  end.

(** The lines one page prints. *)
Definition page_messages (fetch : Z -> response) (page : Z) : list message :=
  match doc_table (content (fetch (page * results_per_page))) with
  | Some cve_table => flat_map (slot_messages cve_table) (seq 0 20)
  | None => [MsgNoTable (page + 1)]
  end.

(** A row that a run over [n] pages looks at. *)
Definition probed (fetch : Z -> response) (n : Z) (row : vuln_row) : Prop :=
  exists page slot, 0 <= page < n /\ served fetch page slot row.

(** The row has a link element without an [href] attribute. *)
Definition lacks_href (row : vuln_row) : Prop :=
  exists a, row_link row = Some a /\ a_href a = None.

Definition host : string := "https://nvd.nist.gov".

Definition red : string := ESC ++ "[91m".
Definition yellow : string := ESC ++ "[93m".
Definition green : string := ESC ++ "[92m".

(** ** The query encoder and the request URL

    Line 12 percent-encodes the query with [urllib.parse.quote], lines 19
    and 44 build the URL of a request. *)

Module Url.

Definition is_alnum (c : ascii) : bool :=
  let n := nat_of_ascii c in
  ((48 <=? n) && (n <=? 57) || (65 <=? n) && (n <=? 90)
   || (97 <=? n) && (n <=? 122))%nat.

(** The characters [quote] never encodes, and its default [safe='/']. *)
Definition always_safe (c : ascii) : bool :=
  is_alnum c || Ascii.eqb c "_" || Ascii.eqb c "." || Ascii.eqb c "-"
  || Ascii.eqb c "~".

Definition safe (c : ascii) : bool := always_safe c || Ascii.eqb c "/".

Definition hex_digit (n : nat) : ascii :=
  if (n <? 10)%nat then ascii_of_nat (48 + n) else ascii_of_nat (55 + n).

(** [%XX] for the byte [b], in upper case. *)
Definition percent (b : nat) : string :=
  String "%" (String (hex_digit (b / 16))
                     (String (hex_digit (b mod 16)) EmptyString)).

(** The UTF-8 bytes of a code point below 256. *)
Definition utf8 (c : ascii) : list nat :=
  let n := nat_of_ascii c in
  if (n <? 128)%nat then [n] else [192 + n / 64; 128 + n mod 64]%nat.

Definition quote_byte (b : nat) : string :=
  if (b <? 128)%nat && safe (ascii_of_nat b)
  then String (ascii_of_nat b) EmptyString
  else percent b.

Definition quote_char (c : ascii) : string :=
  fold_right (fun b acc => quote_byte b ++ acc) EmptyString (utf8 c).

(** [urllib.parse.quote(s)] *)
Fixpoint quote (s : string) : string :=
  match s with
  | EmptyString => EmptyString
  | String c r => quote_char c ++ quote r
  end.

Definition base_url : string := "https://nvd.nist.gov/vuln/search/results".

(** Lines 19 and 44 *)
Definition full_url (cpe_query : string) (start_index : Z) : string :=
  base_url ++ "?adv_search=true&isCpeNameSearch=true&query="
  ++ quote cpe_query ++ "&startIndex=" ++ int_str start_index.

(** *** Notions for the properties of the encoder *)

Definition hex_val (c : ascii) : nat :=
  let n := nat_of_ascii c in
  if (n <=? 57)%nat then n - 48 else n - 55.

(** Reading an encoded text back: [%XX] is a byte, a byte from 192 on
    opens a sequence of two. *)
Fixpoint unquote (s : string) : string :=
  match s with
  | EmptyString => EmptyString
  | String c r =>
      if Ascii.eqb c "%" then
        match r with
        | String h (String l r1) =>
            let b := (16 * hex_val h + hex_val l)%nat in
            if (b <? 128)%nat then String (ascii_of_nat b) (unquote r1)
            else
              match r1 with
              | String _ (String h2 (String l2 r2)) =>
                  let b2 := (16 * hex_val h2 + hex_val l2)%nat in
                  String (ascii_of_nat ((b - 192) * 64 + (b2 - 128)))
                         (unquote r2)
              | _ => EmptyString
              end
        | _ => EmptyString
        end
      else String c (unquote r)
  end.

(** Every character of [s] satisfies [p]. *)
Fixpoint all_chars (p : ascii -> bool) (s : string) : bool :=
  match s with
  | EmptyString => true
  | String c r => p c && all_chars p r
  end.

(** The value of a string of decimal digits. *)
Fixpoint num (s : string) : Z :=
  match s with
  | EmptyString => 0
  | String c r => digit_val c * 10 ^ Z.of_nat (String.length r) + num r
  end.

End Url.

(** ** Tactics *)

(** Case analysis on every comparison of exponents and mantissas. *)
Ltac split_compare :=
  repeat match goal with
         | H : context [Pos.compare_cont Eq ?a ?b] |- _ =>
             change (Pos.compare_cont Eq a b) with (Pos.compare a b) in H
         | |- context [Pos.compare_cont Eq ?a ?b] =>
             change (Pos.compare_cont Eq a b) with (Pos.compare a b)
         end;
  repeat match goal with
         | H : context [(?a ?= ?b)%positive] |- _ =>
             destruct (Pos.compare_spec a b); simpl in H
         | H : context [?a ?= ?b] |- _ =>
             destruct (Z.compare_spec a b); simpl in H
         | |- context [(?a ?= ?b)%positive] =>
             destruct (Pos.compare_spec a b); simpl
         | |- context [?a ?= ?b] =>
             destruct (Z.compare_spec a b); simpl
         end.

(* ================================================================== *)
(** * Part II. Properties                                              *)
(* ================================================================== *)

Local Open Scope list_scope.

(** ** The effects of the loops *)

Section Loops.

Variable fetch : Z -> response.

Lemma process_slot_effect cve_table row st st' :
  process_slot cve_table row st = Ok st' ->
  all_vulns st' = all_vulns st ++ slot_yield cve_table row
  /\ requests st' = requests st
  /\ files st' = files st.
Proof.
  unfold process_slot, slot_yield.
  destruct (find_row cve_table row) as [vr|].
  - destruct (extract_row vr) as [[v|]|e].
    + intros [= <-]. simpl. auto.
    + intros [= <-]. rewrite app_nil_r. auto.
    + destruct (caught e); [|discriminate].
      intros [= <-]. simpl. rewrite app_nil_r. auto.
  - intros [= <-]. rewrite app_nil_r. auto.
Qed.

Lemma for_each_slots_effect cve_table rows : forall st st',
  for_each (process_slot cve_table) rows st = Ok st' ->
  all_vulns st' = all_vulns st ++ flat_map (slot_yield cve_table) rows
  /\ requests st' = requests st
  /\ files st' = files st.
Proof.
  induction rows as [|row rows IH]; simpl; intros st st' H.
  - injection H as <-. rewrite app_nil_r. auto.
  - destruct (process_slot cve_table row st) as [st1|e] eqn:E1;
      simpl in H; [|discriminate].
    apply process_slot_effect in E1 as (V1 & R1 & F1).
    apply IH in H as (V & R & F).
    rewrite V, V1, R, R1, F, F1, app_assoc. auto.
Qed.

Lemma process_page_effect page st st' :
  process_page fetch page st = Ok st' ->
  all_vulns st' = all_vulns st ++ page_yield fetch page
  /\ requests st' = requests st ++ [page * results_per_page]
  /\ files st' = files st.
Proof.
  unfold process_page, page_yield.
  destruct (doc_table (content (fetch (page * results_per_page))))
    as [cve_table|].
  - intros H. apply for_each_slots_effect in H as (V & R & F).
    simpl in *. auto.
  - intros [= <-]. simpl. rewrite app_nil_r. auto.
Qed.

Lemma for_each_pages_effect pages : forall st st',
  for_each (process_page fetch) pages st = Ok st' ->
  all_vulns st' = all_vulns st ++ flat_map (page_yield fetch) pages
  /\ requests st' =
     requests st ++ map (fun page => page * results_per_page) pages
  /\ files st' = files st.
Proof.
  induction pages as [|page pages IH]; simpl; intros st st' H.
  - injection H as <-. rewrite !app_nil_r. auto.
  - destruct (process_page fetch page st) as [st1|e] eqn:E1;
      simpl in H; [|discriminate].
    apply process_page_effect in E1 as (V1 & R1 & F1).
    apply IH in H as (V & R & F).
    rewrite V, V1, R, R1, F, F1, <- !app_assoc. auto.
Qed.

End Loops.

(** ** The shape of a run *)

Lemma print_lines_effect l : forall st,
  let st' := fold_left (fun st v => print (MsgVuln (table_line v)) st) l st in
  all_vulns st' = all_vulns st
  /\ requests st' = requests st
  /\ files st' = files st
  /\ console st' = console st ++ map (fun v => MsgVuln (table_line v)) l.
Proof.
  induction l as [|v l IH]; simpl; intros st.
  - rewrite app_nil_r. auto.
  - destruct (IH (print (MsgVuln (table_line v)) st)) as (V & R & F & C).
    rewrite V, R, F, C. simpl. rewrite <- app_assoc. auto.
Qed.

Lemma report_effect cpe_query st :
  all_vulns (report cpe_query st) = sort_desc (all_vulns st)
  /\ requests (report cpe_query st) = requests st
  /\ files (report cpe_query st) =
     files st ++ [(csv_filename cpe_query,
                   csv_contents (sort_desc (all_vulns st)))]
  /\ console (report cpe_query st) =
     console st
     ++ MsgTableHeader
        :: map (fun v => MsgVuln (table_line v)) (sort_desc (all_vulns st))
     ++ [MsgWritten (csv_filename cpe_query)].
Proof.
  unfold report, output_to_csv.
  set (st1 := print MsgTableHeader (set_vulns (sort_desc (all_vulns st)) st)).
  change (all_vulns (set_vulns (sort_desc (all_vulns st)) st))
    with (all_vulns st1).
  destruct (print_lines_effect (all_vulns st1) st1) as (V & R & F & C).
  cbv zeta in V, R, F, C.
  set (st2 := fold_left _ (all_vulns st1) st1) in *.
  unfold print at 1 2 3 4, write_file. cbn [all_vulns requests files console].
  rewrite V, R, F, C. subst st1. cbn [all_vulns requests files console print set_vulns].
  rewrite <- !app_assoc. simpl. auto.
Qed.

Lemma scrape_run fetch cpe_query st :
  scrape_nist_cve fetch cpe_query = Ok st -> run fetch cpe_query st.
Proof.
  unfold scrape_nist_cve.
  destruct (status_code (fetch 0) =? 200) eqn:S; simpl.
  - apply Z.eqb_eq in S.
    destruct (doc_count (content (fetch 0))) as [text|] eqn:C.
    + destruct (py_int (replace "," "" text)) as [total|] eqn:T;
        simpl; [|discriminate].
      destruct (num_pages_of total) as [n|] eqn:N; simpl; [|discriminate].
      destruct (for_each (process_page fetch) (range n)
                  (print (MsgTotal total) (get 0 initial)))
        as [st1|] eqn:P; simpl; [|discriminate].
      intros [= <-]. eapply RunComplete; eauto.
    + intros [= <-]. now apply RunNoRecords.
  - apply Z.eqb_neq in S. intros [= <-]. now apply RunFailed.
Qed.

Lemma scrape_complete fetch cpe_query text total n :
  status_code (fetch 0) = 200 ->
  doc_count (content (fetch 0)) = Some text ->
  py_int (replace "," "" text) = Some total ->
  num_pages_of total = Ok n ->
  scrape_nist_cve fetch cpe_query =
  bind (for_each (process_page fetch) (range n)
          (print (MsgTotal total) (get 0 initial)))
       (fun st => Ok (report cpe_query st)).
Proof.
  intros S C T N. unfold scrape_nist_cve.
  rewrite S, C, T. simpl. rewrite N. reflexivity.
Qed.

(** The final list of a run is the sorted list of the records its pages
    yield, and every record in it comes from a row of a fetched page. *)
Lemma run_vulns fetch cpe_query st :
  run fetch cpe_query st ->
  all_vulns st = []
  \/ exists text total n,
       doc_count (content (fetch 0)) = Some text
       /\ py_int (replace "," "" text) = Some total
       /\ num_pages_of total = Ok n
       /\ all_vulns st = sort_desc (extracted fetch n).
Proof.
  intros [F|S C|text total n st1 S C T N P]; auto.
  right. exists text, total, n. repeat split; auto.
  apply for_each_pages_effect in P as (V & _ & _).
  destruct (report_effect cpe_query st1) as (V' & _).
  rewrite V', V. reflexivity.
Qed.

(** ** The order on floats *)

Lemma float_lt_ge x y : float_lt x y = true -> float_ge y x = true.
Proof.
  unfold float_lt, float_ge, SFltb, SFleb.
  destruct (SFcompare x y) as [[]|]; intros; congruence.
Qed.

Lemma SFcompare_antisym x y c :
  SFcompare x y = Some c -> SFcompare y x = Some (CompOpp c).
Proof.
  destruct x as [sx|sx| |sx mx ex], y as [sy|sy| |sy my ey];
    simpl; try discriminate;
    try (destruct sx); try (destruct sy);
    try (intros [= <-]; reflexivity);
    intros [= <-]; f_equal;
    rewrite (Z.compare_antisym ex ey);
    destruct (ex ?= ey); simpl; auto;
    change (Pos.compare_cont Eq my mx) with (Pos.compare my mx);
    change (Pos.compare_cont Eq mx my) with (Pos.compare mx my);
    rewrite (Pos.compare_antisym mx my);
    rewrite ?CompOpp_involutive; reflexivity.
Qed.

Lemma SFcompare_defined x y :
  is_nan x = false -> is_nan y = false -> exists c, SFcompare x y = Some c.
Proof.
  destruct x, y; simpl; try discriminate; eauto.
Qed.

(** Away from NaN the order is total. *)
Lemma float_total x y :
  is_nan x = false -> is_nan y = false ->
  float_lt x y = false -> float_ge x y = true.
Proof.
  intros Nx Ny. unfold float_lt, float_ge, SFltb, SFleb.
  destruct (SFcompare_defined x y Nx Ny) as [c E].
  rewrite E, (SFcompare_antisym _ _ _ E).
  destruct c; simpl; congruence.
Qed.

Lemma SFcompare_Eq_finite s m e s' m' e' :
  SFcompare (S754_finite s m e) (S754_finite s' m' e') = Some Eq ->
  s = s' /\ m = m' /\ e = e'.
Proof.
  simpl. destruct s, s'; try discriminate;
    destruct (e ?= e') eqn:E; try discriminate;
    apply Z.compare_eq in E; intros [= H].
  - apply (f_equal CompOpp) in H. rewrite CompOpp_involutive in H.
    apply Pos.compare_eq in H. auto.
  - apply Pos.compare_eq in H. auto.
Qed.

(** Two floats equal to a third are not strictly ordered. *)
Lemma float_eq_not_lt x y z :
  float_eq x z = true -> float_eq y z = true -> float_lt x y = false.
Proof.
  unfold float_eq, float_lt, SFeqb, SFltb.
  destruct (SFcompare x z) as [[]|] eqn:Ex; try discriminate.
  destruct (SFcompare y z) as [[]|] eqn:Ey; try discriminate.
  intros _ _.
  destruct x as [sx|sx| |sx mx ex], z as [sz|sz| |sz mz ez],
           y as [sy|sy| |sy my ey];
    try discriminate;
    try (simpl in *;
         repeat match goal with b : bool |- _ => destruct b end;
         try discriminate; reflexivity).
  apply SFcompare_Eq_finite in Ex as (-> & -> & ->).
  apply SFcompare_Eq_finite in Ey as (-> & -> & ->).
  simpl. rewrite Z.compare_refl.
  change (Pos.compare_cont Eq mz mz) with (Pos.compare mz mz).
  rewrite Pos.compare_refl.
  destruct sz; reflexivity.
Qed.

Lemma float_ge_trans x y z :
  float_ge x y = true -> float_ge y z = true -> float_ge x z = true.
Proof.
  unfold float_ge, SFleb.
  destruct x as [sx|sx| |sx mx ex], y as [sy|sy| |sy my ey],
           z as [sz|sz| |sz mz ez];
    simpl; try discriminate; try reflexivity;
    repeat match goal with b : bool |- _ => destruct b end;
    try discriminate; try reflexivity;
    intros H1 H2; split_compare;
    try discriminate; try reflexivity; lia.
Qed.

Lemma float_ge_antisym x y :
  float_ge x y = true -> float_ge y x = true -> float_eq x y = true.
Proof.
  unfold float_ge, float_eq, SFleb, SFeqb.
  destruct (SFcompare y x) as [c|] eqn:E; [|discriminate].
  rewrite (SFcompare_antisym _ _ _ E).
  destruct c; simpl; congruence.
Qed.

Lemma float_eq_refl x : is_nan x = false -> float_eq x x = true.
Proof.
  unfold float_eq, SFeqb.
  destruct x as [s|s| |s m e]; try discriminate; intros _; simpl;
    try (destruct s; reflexivity).
  rewrite Z.compare_refl.
  change (Pos.compare_cont Eq m m) with (Pos.compare m m).
  rewrite Pos.compare_refl. destruct s; reflexivity.
Qed.

(** ** The sort *)

Lemma insert_desc_perm v l : Permutation (v :: l) (insert_desc v l).
Proof.
  induction l as [|w l IH]; simpl; auto.
  destruct (float_lt (score v) (score w)); auto.
  rewrite perm_swap. auto.
Qed.

Lemma sort_desc_perm l : Permutation l (sort_desc l).
Proof.
  induction l as [|v l IH]; simpl; auto.
  rewrite <- insert_desc_perm. auto.
Qed.

Lemma sort_desc_In v l : In v (sort_desc l) <-> In v l.
Proof.
  split; apply Permutation_in;
    [apply Permutation_sym|]; apply sort_desc_perm.
Qed.

Lemma insert_desc_descending v l :
  is_nan (score v) = false -> no_nan l ->
  descending l -> descending (insert_desc v l).
Proof.
  unfold descending. intros Nv Nl S.
  induction S as [|w l S IH H]; simpl.
  - repeat constructor.
  - inversion Nl as [|? ? Nw Nl']; subst.
    destruct (float_lt (score v) (score w)) eqn:L.
    + constructor; auto.
      destruct l as [|u l]; simpl.
      * constructor. now apply float_lt_ge.
      * inversion H; subst.
        destruct (float_lt (score v) (score u));
          constructor; auto using float_lt_ge.
    + constructor.
      * constructor; auto.
      * constructor. now apply float_total.
Qed.

Lemma sort_desc_descending l : no_nan l -> descending (sort_desc l).
Proof.
  induction 1 as [|v l Nv Nl IH]; simpl.
  - constructor.
  - apply insert_desc_descending; auto.
    apply Forall_forall. intros u Hu.
    apply (proj1 (sort_desc_In _ _)) in Hu.
    exact (proj1 (Forall_forall _ _) Nl u Hu).
Qed.

Lemma with_score_insert x v l :
  with_score x (insert_desc v l) = with_score x (v :: l).
Proof.
  unfold with_score.
  induction l as [|w l IH]; simpl; auto.
  destruct (float_lt (score v) (score w)) eqn:L; simpl; auto.
  rewrite IH. simpl.
  destruct (float_eq (score v) x) eqn:Ev;
    destruct (float_eq (score w) x) eqn:Ew; auto.
  rewrite (float_eq_not_lt _ _ _ Ev Ew) in L. discriminate.
Qed.

(** The sort is stable: records with equal scores keep their order. *)
Lemma sort_desc_stable x l : with_score x (sort_desc l) = with_score x l.
Proof.
  induction l as [|v l IH]; simpl; auto.
  rewrite with_score_insert. unfold with_score in *. simpl.
  rewrite IH. reflexivity.
Qed.

Lemma descending_head_max l : forall v u,
  descending (v :: l) -> In u l -> float_ge (score v) (score u) = true.
Proof.
  unfold descending.
  induction l as [|w l IH]; intros v u D I; [contradiction|].
  inversion D as [|? ? D' Hd]; subst. inversion Hd as [|? ? G]; subst.
  destruct I as [<-|I]; [exact G|].
  apply (float_ge_trans _ (score w)); [exact G|]. now apply IH.
Qed.

Lemma descending_tail v l : descending (v :: l) -> descending l.
Proof. unfold descending. now inversion 1. Qed.

(** A NaN-free list in descending order is determined by the order of
    its records within each score. *)
Lemma descending_unique a : forall b,
  no_nan a -> no_nan b -> descending a -> descending b ->
  (forall x, with_score x a = with_score x b) -> a = b.
Proof.
  induction a as [|u a IH]; intros b Na Nb Da Db W.
  - destruct b as [|v b]; [reflexivity|].
    inversion Nb as [|? ? Nv _]; subst.
    specialize (W (score v)). unfold with_score in W. simpl in W.
    rewrite (float_eq_refl _ Nv) in W. discriminate.
  - inversion Na as [|? ? Nu Na']; subst.
    destruct b as [|v b].
    + specialize (W (score u)). unfold with_score in W. simpl in W.
      rewrite (float_eq_refl _ Nu) in W. discriminate.
    + inversion Nb as [|? ? Nv Nb']; subst.
      assert (Iu : In u (v :: b)).
      { assert (I : In u (with_score (score u) (v :: b))).
        { rewrite <- W. unfold with_score. simpl.
          rewrite (float_eq_refl _ Nu). now left. }
        apply filter_In in I. tauto. }
      assert (Iv : In v (u :: a)).
      { assert (I : In v (with_score (score v) (u :: a))).
        { rewrite W. unfold with_score. simpl.
          rewrite (float_eq_refl _ Nv). now left. }
        apply filter_In in I. tauto. }
      assert (E : float_eq (score v) (score u) = true).
      { destruct Iu as [->|Iu]; [now apply float_eq_refl|].
        destruct Iv as [->|Iv]; [now apply float_eq_refl|].
        apply float_ge_antisym.
        - exact (descending_head_max _ _ _ Db Iu).
        - exact (descending_head_max _ _ _ Da Iv). }
      assert (H : u = v).
      { pose proof (W (score u)) as Wu. unfold with_score in Wu.
        simpl in Wu. rewrite (float_eq_refl _ Nu), E in Wu.
        now injection Wu. }
      subst v. f_equal.
      apply IH; eauto using descending_tail.
      intros x. specialize (W x). unfold with_score in *. simpl in W.
      destruct (float_eq (score u) x); [now injection W|exact W].
Qed.

(** On a list without NaN the outcome of a stable sort in descending order
    is the list [sort_desc] returns. *)
Lemma stable_sort_unique l l' :
  no_nan l ->
  Permutation l l' ->
  descending l' ->
  (forall x, with_score x l' = with_score x l) ->
  l' = sort_desc l.
Proof.
  intros N P D W.
  assert (N' : no_nan l').
  { unfold no_nan in *. rewrite Forall_forall in *. intros v Hv.
    apply N. apply Permutation_sym in P. exact (Permutation_in _ P Hv). }
  apply descending_unique; auto.
  - unfold no_nan in *. rewrite Forall_forall in *. intros v Hv.
    apply N. now apply sort_desc_In.
  - now apply sort_desc_descending.
  - intros x. rewrite W. symmetry. apply sort_desc_stable.
Qed.

(** ** Reading back what the writer wrote *)

Section CsvRoundTrip.
Import Csv.

Lemma append_assoc (a b c : string) :
  ((a ++ b) ++ c)%string = (a ++ (b ++ c))%string.
Proof. induction a as [|x a IH]; simpl; congruence. Qed.

Lemma append_nil_r (a : string) : (a ++ EmptyString)%string = a.
Proof. induction a as [|x a IH]; simpl; congruence. Qed.

Lemma special_false c :
  special c = false ->
  Ascii.eqb c delimiter = false /\ Ascii.eqb c quotechar = false
  /\ Ascii.eqb c CR = false /\ Ascii.eqb c LF = false.
Proof.
  unfold special. intros H.
  repeat (apply orb_false_elim in H as [H ?]). auto.
Qed.

(** No line ends after a character that is not a line break, unless the
    file ends there. *)
Lemma line_ends_inside c a d rest :
  Ascii.eqb c CR = false -> Ascii.eqb c LF = false ->
  line_ends c (a ++ String d rest) = false.
Proof.
  intros H1 H2. destruct a; simpl; rewrite H1, H2; reflexivity.
Qed.

Lemma read_step rd c rest rd1 :
  parse_process_char rd (Ch c) = Some rd1 ->
  line_ends c rest = false ->
  read_from rd (String c rest) = read_from rd1 rest.
Proof. intros P L. simpl. rewrite P, L. reflexivity. Qed.

(** Inside quotes every character but the quote is taken as it is, line
    breaks included. *)
Lemma read_in_quotes c f fs rest :
  Ascii.eqb c quotechar = false ->
  read_from (mk IN_QUOTED_FIELD f fs) (String c rest) =
  read_from (mk IN_QUOTED_FIELD (f ++ String c EmptyString) fs) rest.
Proof.
  intros H. simpl. unfold parse_process_char. simpl. rewrite H.
  unfold parse_add_char. simpl.
  destruct (line_ends c rest); reflexivity.
Qed.

Lemma read_quoted_body s : forall f fs d rest,
  read_from (mk IN_QUOTED_FIELD f fs)
            (double_quotes s ++ String quotechar (String d rest)) =
  read_from (mk QUOTE_IN_QUOTED_FIELD (f ++ s) fs) (String d rest).
Proof.
  induction s as [|c s IH]; intros f fs d rest.
  - rewrite append_nil_r. reflexivity.
  - cbn [double_quotes].
    destruct (Ascii.eqb c quotechar) eqn:Q.
    + apply Ascii.eqb_eq in Q. subst c.
      cbn [String.append].
      rewrite (read_step _ _ _ (mk QUOTE_IN_QUOTED_FIELD f fs))
        by reflexivity.
      rewrite (read_step _ _ _
                 (mk IN_QUOTED_FIELD (f ++ String quotechar EmptyString) fs))
        by (try reflexivity; now apply line_ends_inside).
      rewrite IH, append_assoc. reflexivity.
    + cbn [String.append]. rewrite read_in_quotes by assumption.
      rewrite IH, append_assoc. reflexivity.
Qed.

Lemma read_unquoted_body s : forall f fs d rest,
  any_special s = false ->
  read_from (mk IN_FIELD f fs) (s ++ String d rest) =
  read_from (mk IN_FIELD (f ++ s) fs) (String d rest).
Proof.
  induction s as [|c s IH]; intros f fs d rest H.
  - rewrite append_nil_r. reflexivity.
  - simpl in H. apply orb_false_elim in H as [Hc Hs].
    destruct (special_false c Hc) as (D & Q & R & L).
    cbn [String.append].
    rewrite (read_step _ _ _ (mk IN_FIELD (f ++ String c EmptyString) fs)).
    + rewrite IH by assumption. rewrite append_assoc. reflexivity.
    + unfold parse_process_char. cbn [rstate mk is_newline].
      rewrite R, L, D. reflexivity.
    + now apply line_ends_inside.
Qed.

Lemma read_field f fs d rest :
  read_from (mk START_FIELD EmptyString fs)
            (write_field f ++ String d rest) =
  read_from (mk (state_after f) f fs) (String d rest).
Proof.
  unfold write_field, state_after.
  destruct (any_special f) eqn:S.
  - unfold quoted. cbn [String.append]. rewrite append_assoc.
    cbn [String.append].
    rewrite (read_step _ _ _ (mk IN_QUOTED_FIELD EmptyString fs))
      by (try reflexivity; now apply line_ends_inside).
    rewrite read_quoted_body. reflexivity.
  - destruct f as [|c f]; [reflexivity|].
    simpl in S. apply orb_false_elim in S as [Hc Hs].
    destruct (special_false c Hc) as (D & Q & R & L).
    cbn [String.append is_empty].
    rewrite (read_step _ _ _ (mk IN_FIELD (String c EmptyString) fs)).
    + rewrite read_unquoted_body by assumption. reflexivity.
    + unfold parse_process_char, start_field. cbn [rstate mk is_newline].
      rewrite R, L, D, Q. reflexivity.
    + now apply line_ends_inside.
Qed.

Lemma read_delimiter f fs g a d rest :
  read_from (mk (state_after g) f fs)
            (String delimiter (a ++ String d rest)) =
  read_from (mk START_FIELD EmptyString (fs ++ [f])) (a ++ String d rest).
Proof.
  unfold state_after.
  destruct (any_special g); [|destruct (is_empty g)];
    apply read_step; try reflexivity; now apply line_ends_inside.
Qed.

Lemma line_ends_LF rest : line_ends LF rest = true.
Proof. destruct rest; reflexivity. Qed.

Lemma read_lineterminator f fs g rest :
  read_from (mk (state_after g) f fs) (lineterminator ++ rest) =
  option_map (cons (fs ++ [f])) (read_from parse_reset rest).
Proof.
  unfold state_after, lineterminator. cbn [String.append].
  destruct (any_special g); [|destruct (is_empty g)];
    cbn [read_from]; unfold parse_process_char;
    cbn; rewrite line_ends_LF; reflexivity.
Qed.

(** A record of at least one field, read from the start of a field. *)
Lemma read_fields fs : forall f done rest,
  read_from (mk START_FIELD EmptyString done)
            (join_fields (f :: fs) ++ lineterminator ++ rest) =
  option_map (cons (done ++ f :: fs)) (read_from parse_reset rest).
Proof.
  induction fs as [|g fs IH]; intros f done rest.
  - cbn [join_fields]. unfold lineterminator at 1. cbn [String.append].
    rewrite read_field.
    change (String CR (String LF rest)) with (lineterminator ++ rest)%string.
    apply read_lineterminator.
  - change (join_fields (f :: g :: fs))
      with (write_field f ++ String delimiter (join_fields (g :: fs)))%string.
    rewrite append_assoc. cbn [String.append].
    rewrite read_field.
    change (lineterminator ++ rest)%string
      with (String CR (String LF rest)).
    rewrite read_delimiter.
    change (String CR (String LF rest)) with (lineterminator ++ rest)%string.
    rewrite IH, <- app_assoc. reflexivity.
Qed.

(** At the start of a record a character that is no line break is
    handled as at the start of a field. *)
Lemma read_start_record c rest :
  Ascii.eqb c LF || Ascii.eqb c CR = false ->
  read_from parse_reset (String c rest) =
  read_from (mk START_FIELD EmptyString []) (String c rest).
Proof.
  intros H. cbn [read_from]. unfold parse_process_char, parse_reset.
  cbn [rstate is_newline mk]. rewrite H. reflexivity.
Qed.

Lemma write_field_head f :
  f <> EmptyString ->
  exists c r, write_field f = String c r
              /\ Ascii.eqb c LF || Ascii.eqb c CR = false.
Proof.
  intros N. unfold write_field.
  destruct (any_special f) eqn:S.
  - exists quotechar. eexists. split; reflexivity.
  - destruct f as [|c f]; [congruence|].
    simpl in S. apply orb_false_elim in S as [Hc _].
    destruct (special_false c Hc) as (_ & _ & R & L).
    exists c, f. rewrite L, R. auto.
Qed.

Lemma read_writerow fs rest :
  read_from parse_reset (writerow fs ++ rest) =
  option_map (cons fs) (read_from parse_reset rest).
Proof.
  destruct fs as [|f fs].
  - simpl. unfold parse_process_char. simpl.
    rewrite line_ends_LF. reflexivity.
  - destruct (string_dec f EmptyString) as [->|N].
    + destruct fs as [|g fs].
      * simpl. unfold parse_process_char. simpl.
        rewrite line_ends_LF. reflexivity.
      * unfold writerow. rewrite append_assoc.
        change (join_fields (EmptyString :: g :: fs))
          with (String delimiter (join_fields (g :: fs))).
        cbn [String.append]. rewrite read_start_record by reflexivity.
        change (String delimiter
                  (join_fields (g :: fs) ++ lineterminator ++ rest))%string
          with (join_fields (EmptyString :: g :: fs)
                ++ lineterminator ++ rest)%string.
        apply (read_fields (g :: fs) EmptyString []).
    + assert (W : writerow (f :: fs) =
                  (join_fields (f :: fs) ++ lineterminator)%string).
      { destruct f; [congruence|]. destruct fs; reflexivity. }
      rewrite W, append_assoc.
      destruct (write_field_head f N) as (c & r & E & H).
      assert (J : exists r', join_fields (f :: fs) = String c r').
      { destruct fs; cbn [join_fields]; rewrite E; simpl; eauto. }
      destruct J as (r' & J).
      rewrite J. cbn [String.append]. rewrite read_start_record by assumption.
      change (String c (r' ++ lineterminator ++ rest))%string
        with (String c r' ++ lineterminator ++ rest)%string.
      rewrite <- J. apply (read_fields fs f []).
Qed.

(** Every sequence of records written by the writer is read back
    unchanged. *)
Lemma read_writerows rows : read (writerows rows) = Some rows.
Proof.
  unfold read. induction rows as [|fs rows IH]; [reflexivity|].
  cbn [writerows]. rewrite read_writerow, IH. reflexivity.
Qed.

End CsvRoundTrip.

(** ** Extraction of a row *)

Lemma truthy_nonzero x :
  truthy x = negb (float_eq x (S754_zero false)).
Proof. destruct x as [s|s| |s m e]; try destruct s; reflexivity. Qed.

(** A score is returned only for a span that holds the marker, and it is
    what [float] makes of the first token after the marker. *)
Lemma extract_score_some score_column x :
  extract_score score_column = Ok (Some x) ->
  exists text after token,
    score_column = Some text
    /\ contains marker text = true
    /\ nth_error (split marker text) 1 = Some after
    /\ nth_error (split_ws after) 0 = Some token
    /\ py_float token = Some x.
Proof.
  unfold extract_score, subscript.
  destruct score_column as [text|]; [|discriminate].
  destruct (contains marker text) eqn:C; [|discriminate].
  destruct (nth_error (split marker text) 1) as [after|] eqn:A;
    cbn [bind]; [|discriminate].
  destruct (nth_error (split_ws after) 0) as [token|] eqn:T;
    cbn [bind]; [|discriminate].
  destruct (py_float token) as [y|] eqn:F; [|discriminate].
  intros [= <-]. exists text, after, token. auto.
Qed.

Lemma extract_score_raise score_column e :
  extract_score score_column = Raise e -> e = IndexError \/ e = ValueError.
Proof.
  unfold extract_score, subscript.
  destruct score_column as [text|]; [|discriminate].
  destruct (contains marker text); [|discriminate].
  destruct (nth_error (split marker text) 1) as [after|];
    cbn [bind]; [|intros [= <-]; auto].
  destruct (nth_error (split_ws after) 0) as [token|];
    cbn [bind]; [|intros [= <-]; auto].
  destruct (py_float token); [discriminate|].
  intros [= <-]. auto.
Qed.

Lemma extract_score_no_marker score_column :
  score_column = None
  \/ (exists text, score_column = Some text /\ contains marker text = false) ->
  extract_score score_column = Ok None.
Proof.
  intros [->|(text & -> & C)]; simpl; [|rewrite C]; reflexivity.
Qed.

(** A row gives a record exactly when nothing raises and the score is there
    and true. *)
Lemma extract_row_some row v :
  extract_row row = Ok (Some v) <->
  exists link summary x,
    match row_link row with
    | Some a =>
        exists href,
          a_href a = Some href
          /\ link = (a_text a, ("https://nvd.nist.gov" ++ href)%string)
    | None => link = (not_available, not_available)
    end
    /\ row_summary row = Some summary
    /\ extract_score (row_cvss3 row) = Ok (Some x)
    /\ truthy x = true
    /\ v = {| cve_number := fst link;
              score := x;
              description := summary;
              published_date :=
                match row_published row with
                | Some text => text
                | None => not_available
                end;
              url := snd link |}.
Proof.
  unfold extract_row. split.
  - destruct (row_link row) as [a|].
    + destruct (a_href a) as [href|]; [|discriminate]. simpl.
      destruct (row_summary row) as [summary|]; [|discriminate]. simpl.
      destruct (extract_score (row_cvss3 row)) as [[x|]|e];
        simpl; try discriminate.
      destruct (truthy x) eqn:T; [|discriminate].
      intros [= <-]. do 3 eexists. repeat split; eauto.
    + simpl.
      destruct (row_summary row) as [summary|]; [|discriminate]. simpl.
      destruct (extract_score (row_cvss3 row)) as [[x|]|e];
        simpl; try discriminate.
      destruct (truthy x) eqn:T; [|discriminate].
      intros [= <-]. do 3 eexists. repeat split; eauto.
  - intros (link & summary & x & L & S & E & T & ->).
    destruct (row_link row) as [a|].
    + destruct L as (href & -> & ->). simpl.
      rewrite S. simpl. rewrite E. simpl. rewrite T. reflexivity.
    + subst link. simpl.
      rewrite S. simpl. rewrite E. simpl. rewrite T. reflexivity.
Qed.

(** What the body of the [try] can raise. *)
Lemma extract_row_raise row e :
  extract_row row = Raise e ->
  (e = KeyError
   /\ exists a, row_link row = Some a /\ a_href a = None)
  \/ (e = AttributeError /\ row_summary row = None)
  \/ ((e = IndexError \/ e = ValueError)
      /\ extract_score (row_cvss3 row) = Raise e).
Proof.
  unfold extract_row.
  destruct (row_link row) as [a|].
  - destruct (a_href a) as [href|] eqn:H; simpl.
    + destruct (row_summary row) as [summary|]; simpl;
        [|intros [= <-]; auto].
      destruct (extract_score (row_cvss3 row)) as [[x|]|e'] eqn:E; simpl.
      * destruct (truthy x); discriminate.
      * discriminate.
      * intros [= <-]. right. right. split; auto.
        now apply extract_score_raise in E.
    + intros [= <-]. left. split; auto. eauto.
  - simpl. destruct (row_summary row) as [summary|]; simpl;
      [|intros [= <-]; auto].
    destruct (extract_score (row_cvss3 row)) as [[x|]|e'] eqn:E; simpl.
    + destruct (truthy x); discriminate.
    + discriminate.
    + intros [= <-]. right. right. split; auto.
      now apply extract_score_raise in E.
Qed.

(** Every record of the first [n] pages comes from a row served on one of
    them. *)
Lemma extracted_served fetch n v :
  In v (extracted fetch n) ->
  exists page slot row,
    0 <= page < n
    /\ served fetch page slot row
    /\ extract_row row = Ok (Some v).
Proof.
  unfold extracted, range. intros H.
  apply in_flat_map in H as (page & Hp & H).
  apply in_map_iff in Hp as (k & <- & Hk). apply in_seq in Hk.
  unfold page_yield in H.
  destruct (doc_table (content (fetch (Z.of_nat k * results_per_page))))
    as [cve_table|] eqn:T; [|contradiction].
  apply in_flat_map in H as (slot & Hs & H). apply in_seq in Hs.
  unfold slot_yield in H.
  destruct (find_row cve_table slot) as [row|] eqn:R; [|contradiction].
  destruct (extract_row row) as [[w|]|e] eqn:X; try contradiction.
  destruct H as [->|[]].
  exists (Z.of_nat k), slot, row. split; [lia|]. split; auto.
  exists cve_table. repeat split; auto. lia.
Qed.

Lemma run_served fetch cpe_query st v :
  run fetch cpe_query st ->
  In v (all_vulns st) ->
  exists page slot row,
    served fetch page slot row /\ extract_row row = Ok (Some v).
Proof.
  intros R H.
  destruct (run_vulns _ _ _ R) as [E|(text & total & n & _ & _ & _ & E)];
    rewrite E in H; [contradiction|].
  apply (proj1 (sort_desc_In _ _)) in H.
  apply extracted_served in H as (page & slot & row & _ & S & X).
  eauto.
Qed.

(** ** Strings cut at a position *)

Lemma take_drop n s : (take n s ++ drop n s)%string = s.
Proof.
  unfold take, drop. revert n.
  induction s as [|c s IH]; intros [|n]; simpl; try reflexivity.
  - f_equal. specialize (IH 0%nat). simpl in IH.
    rewrite Nat.sub_0_r in IH.
    destruct s; simpl in *; [reflexivity|]. injection IH as IH. now f_equal.
  - f_equal. apply IH.
Qed.

Lemma length_take n s :
  (n <= String.length s)%nat -> String.length (take n s) = n.
Proof.
  unfold take. revert n.
  induction s as [|c s IH]; intros [|n] H; simpl in *; try reflexivity;
    try lia.
  f_equal. apply IH. lia.
Qed.

Lemma length_append (a b : string) :
  String.length (a ++ b) = (String.length a + String.length b)%nat.
Proof. induction a as [|c a IH]; simpl; congruence. Qed.

(** ** The page count: a quotient rounded to binary64, then [math.ceil] *)

(** [Zdigits2] counts the binary digits of a positive integer. *)
Lemma digits2_size p : digits2_pos p = Pos.size p.
Proof. induction p; simpl; congruence. Qed.

Lemma Zdigits2_log2 z : 0 < z -> Zdigits2 z = Z.log2 z + 1.
Proof.
  destruct z as [|p|p]; try lia. intros _.
  destruct p; simpl; rewrite ?digits2_size; lia.
Qed.


(** One step of the shifter halves the mantissa, keeps the bit shifted out
    as the round bit and folds the earlier bits into the sticky bit. *)
Lemma shr_1_spec m r s :
  0 <= m ->
  shr_1 {| shr_m := m; shr_r := r; shr_s := s |} =
  {| shr_m := m / 2; shr_r := Z.odd m; shr_s := r || s |}.
Proof.
  intros H. destruct m as [|p|p]; try lia.
  - reflexivity.
  - destruct p; simpl; f_equal.
    + rewrite Pos2Z.inj_xI. apply (Z.div_unique _ 2 _ 1); lia.
    + rewrite Pos2Z.inj_xO. apply (Z.div_unique _ 2 _ 0); lia.
Qed.














(* ================================================================== *)
(** * Part III. The properties of the specification                    *)
(* ================================================================== *)

(** ** Page planning *)

Example num_pages_41 : num_pages_of 41 = Ok 3.
Proof. vm_compute. reflexivity. Qed.

Example num_pages_40 : num_pages_of 40 = Ok 2.
Proof. vm_compute. reflexivity. Qed.

(** A run that goes through its pages requests offset 0 for the discovery
    and then [page * 20] for every page of [range n], in order. *)
Lemma pages_requested fetch cpe_query text total n st :
  status_code (fetch 0) = 200 ->
  doc_count (content (fetch 0)) = Some text ->
  py_int (replace "," "" text) = Some total ->
  num_pages_of total = Ok n ->
  scrape_nist_cve fetch cpe_query = Ok st ->
  requests st = 0 :: map (fun page => page * results_per_page) (range n).
Proof.
  intros S C T N H.
  rewrite (scrape_complete _ _ _ _ _ S C T N) in H.
  destruct (for_each (process_page fetch) (range n)
              (print (MsgTotal total) (get 0 initial))) as [st1|] eqn:P;
    simpl in H; [|discriminate].
  injection H as <-.
  apply for_each_pages_effect in P as (_ & R & _).
  destruct (report_effect cpe_query st1) as (_ & R' & _).
  rewrite R', R. reflexivity.
Qed.

Example offsets_41 :
  exists st, scrape_nist_cve Fixture.forty_one Fixture.query = Ok st
             /\ requests st = [0; 0; 20; 40].
Proof. eexists. split; vm_compute; reflexivity. Qed.

Example offsets_40 :
  exists st, scrape_nist_cve Fixture.forty Fixture.query = Ok st
             /\ requests st = [0; 0; 20].
Proof. eexists. split; vm_compute; reflexivity. Qed.




(** ** Discovery *)

(** C5. When the discovery request does not return status 200, or its
    document has no total-count element, the run ends after that one
    request with a single message on the console, no record and no file. *)
Theorem discovery_failure_aborts fetch cpe_query :
  status_code (fetch 0) <> 200 \/ doc_count (content (fetch 0)) = None ->
  exists m,
    (m = MsgFailed (status_code (fetch 0)) \/ m = MsgNoRecords)
    /\ scrape_nist_cve fetch cpe_query =
       Ok {| all_vulns := []; requests := [0]; console := [m]; files := [] |}.
Proof.
  intros H. unfold scrape_nist_cve.
  destruct (status_code (fetch 0) =? 200) eqn:S; simpl.
  - destruct H as [H|H].
    + apply Z.eqb_eq in S. contradiction.
    + rewrite H. exists MsgNoRecords. split; auto.
  - exists (MsgFailed (status_code (fetch 0))). split; auto.
Qed.

Lemma discovery_failure_aborts_witness :
  exists m,
    (m = MsgFailed 503 \/ m = MsgNoRecords)
    /\ scrape_nist_cve Fixture.unavailable Fixture.query =
       Ok {| all_vulns := []; requests := [0]; console := [m]; files := [] |}.
Proof.
  apply (discovery_failure_aborts Fixture.unavailable Fixture.query).
  left. simpl. lia.
Defined.

(** C3, as the script behaves.  When the discovery document reports a total
    of exactly 0, no page is fetched and the run completes on its ordinary
    path: it prints the total and an empty table, and writes an output file
    that holds the header row only. *)
Theorem zero_total_writes_header_only fetch cpe_query text :
  status_code (fetch 0) = 200 ->
  doc_count (content (fetch 0)) = Some text ->
  py_int (replace "," "" text) = Some 0 ->
  scrape_nist_cve fetch cpe_query =
  Ok {| all_vulns := [];
        requests := [0];
        console := [MsgTotal 0; MsgTableHeader;
                    MsgWritten (csv_filename cpe_query)];
        files := [(csv_filename cpe_query, Csv.writerow fieldnames)] |}.
Proof.
  intros S C T.
  rewrite (scrape_complete _ _ _ _ 0 S C T) by (vm_compute; reflexivity).
  reflexivity.
Qed.

Lemma zero_total_writes_header_only_witness :
  scrape_nist_cve Fixture.empty_result Fixture.query =
  Ok {| all_vulns := [];
        requests := [0];
        console := [MsgTotal 0; MsgTableHeader;
                    MsgWritten (csv_filename Fixture.query)];
        files := [(csv_filename Fixture.query, Csv.writerow fieldnames)] |}.
Proof.
  apply (zero_total_writes_header_only Fixture.empty_result Fixture.query "0");
    reflexivity.
Defined.

(** C3, as stated, fails: with a total of 0 the run does not take the
    path of the message [No matching records found.], and it writes a
    file. *)
Lemma zero_total_still_writes_file :
  exists st,
    scrape_nist_cve Fixture.empty_result Fixture.query = Ok st
    /\ requests st = [0]
    /\ ~ In MsgNoRecords (console st)
    /\ files st <> [].
Proof.
  eexists. split; [vm_compute; reflexivity|].
  repeat split.
  - simpl. intros [H|[H|[H|[]]]]; discriminate.
  - discriminate.
Qed.

(** ** Rows and their scores *)

(** C7. The score is read from the [cvss3-link] span alone.  When that span
    is absent, or its text does not hold the marker [V3.1:], score
    extraction returns no score and raises nothing, the row gives no
    record, and a turn of the loop on its slot leaves [all_vulns] as it
    was. *)
Theorem missing_marker_yields_no_record row :
  row_cvss3 row = None
  \/ (exists text, row_cvss3 row = Some text /\ contains marker text = false) ->
  extract_score (row_cvss3 row) = Ok None
  /\ (forall v, extract_row row <> Ok (Some v))
  /\ (forall cve_table slot,
        find_row cve_table slot = Some row -> slot_yield cve_table slot = [])
  /\ (forall cve_table slot st st',
        find_row cve_table slot = Some row ->
        process_slot cve_table slot st = Ok st' ->
        all_vulns st' = all_vulns st).
Proof.
  intros H. pose proof (extract_score_no_marker _ H) as E.
  assert (X : forall v, extract_row row <> Ok (Some v)).
  { intros v Hv. apply extract_row_some in Hv
      as (_ & _ & x & _ & _ & Ex & _). congruence. }
  assert (Y : forall cve_table slot,
             find_row cve_table slot = Some row ->
             slot_yield cve_table slot = []).
  { intros cve_table slot F. unfold slot_yield. rewrite F.
    destruct (extract_row row) as [[v|]|e] eqn:R; auto.
    elim (X v eq_refl). }
  repeat split; auto.
  intros cve_table slot st st' F P.
  apply process_slot_effect in P as (V & _).
  rewrite V, (Y _ _ F), app_nil_r. reflexivity.
Qed.

Lemma missing_marker_yields_no_record_witness :
  extract_score (Some "V2.0:5.0 MEDIUM") = Ok None
  /\ (forall v,
        extract_row (Fixture.row_with (Some "/vuln/detail/CVE-2024-0001")
                       (Some "A flaw, in a parser")
                       (Some "V2.0:5.0 MEDIUM")) <> Ok (Some v))
  /\ (forall cve_table slot,
        find_row cve_table slot =
        Some (Fixture.row_with (Some "/vuln/detail/CVE-2024-0001")
                (Some "A flaw, in a parser") (Some "V2.0:5.0 MEDIUM")) ->
        slot_yield cve_table slot = [])
  /\ (forall cve_table slot st st',
        find_row cve_table slot =
        Some (Fixture.row_with (Some "/vuln/detail/CVE-2024-0001")
                (Some "A flaw, in a parser") (Some "V2.0:5.0 MEDIUM")) ->
        process_slot cve_table slot st = Ok st' ->
        all_vulns st' = all_vulns st).
Proof.
  apply (missing_marker_yields_no_record
           (Fixture.row_with (Some "/vuln/detail/CVE-2024-0001")
              (Some "A flaw, in a parser") (Some "V2.0:5.0 MEDIUM"))).
  right. exists "V2.0:5.0 MEDIUM". split; reflexivity.
Defined.

(** C10. The score of a row is parsed after its link and summary have been
    extracted without an exception, and [if score_v3:] tests the truth
    value of the float: a row gives a record exactly when its score is
    parsed to a float different from 0.0.  In particular a row whose span
    holds the marker and whose token parses to 0.0 (the text
    [V3.1:0.0 NONE], say) gives no record. *)
Theorem record_iff_nonzero_score row :
  ((exists v, extract_row row = Ok (Some v)) <->
   (fields_present row
    /\ exists x, extract_score (row_cvss3 row) = Ok (Some x)
                 /\ float_eq x (S754_zero false) = false))
  /\ (forall x cve_table slot,
        extract_score (row_cvss3 row) = Ok (Some x) ->
        float_eq x (S754_zero false) = true ->
        find_row cve_table slot = Some row ->
        slot_yield cve_table slot = [])
  /\ extract_score (Some "V3.1:0.0 NONE") = Ok (Some (S754_zero false)).
Proof.
  split; [split|split].
  - intros (v & H). apply extract_row_some in H
      as (link & summary & x & L & S & E & T & _).
    split.
    + split; [|eauto].
      destruct (row_link row) as [a|]; auto.
      destruct L as (href & Hh & _). right. eauto.
    + exists x. split; auto.
      rewrite truthy_nonzero in T. now apply negb_true_iff in T.
  - intros ((L & summary & S) & x & E & Z).
    assert (T : truthy x = true)
      by (rewrite truthy_nonzero, Z; reflexivity).
    destruct L as [L|(a & href & L & Hh)].
    + eexists. apply extract_row_some.
      exists (not_available, not_available), summary, x.
      rewrite L. repeat split; auto.
    + eexists. apply extract_row_some.
      exists (a_text a, ("https://nvd.nist.gov" ++ href)%string), summary, x.
      rewrite L. repeat split; eauto.
  - intros x cve_table slot E Z F. unfold slot_yield. rewrite F.
    destruct (extract_row row) as [[v|]|e] eqn:R; auto.
    apply extract_row_some in R as (_ & _ & y & _ & _ & E' & T & _).
    rewrite E in E'. injection E' as <-.
    rewrite truthy_nonzero, Z in T. discriminate.
  - vm_compute. reflexivity.
Qed.

(** A row without a summary paragraph raises [AttributeError], which the
    [except] clause catches. *)
Lemma missing_summary_raises row :
  (row_link row = None
   \/ exists a href, row_link row = Some a /\ a_href a = Some href) ->
  row_summary row = None ->
  extract_row row = Raise AttributeError.
Proof.
  unfold extract_row. intros [L|(a & href & L & H)] S.
  - rewrite L, S. reflexivity.
  - rewrite L, H, S. reflexivity.
Qed.

(** C6, as the script behaves.  An exception raised while the fields of a
    row are extracted, other than the [KeyError] of a link without [href]
    (so: an [AttributeError], an [IndexError] or a [ValueError]), ends the
    extraction of that row only: the error is printed, [all_vulns] is left
    as it was, and the loop goes on with the next slot. *)
Theorem caught_row_failure_is_local cve_table slot row e st rest :
  find_row cve_table slot = Some row ->
  extract_row row = Raise e ->
  e <> KeyError ->
  (e = AttributeError \/ e = IndexError \/ e = ValueError)
  /\ process_slot cve_table slot st = Ok (print (MsgRowError e) st)
  /\ all_vulns (print (MsgRowError e) st) = all_vulns st
  /\ slot_yield cve_table slot = []
  /\ for_each (process_slot cve_table) (slot :: rest) st =
     for_each (process_slot cve_table) rest (print (MsgRowError e) st).
Proof.
  intros F R N.
  assert (K : e = AttributeError \/ e = IndexError \/ e = ValueError).
  { destruct (extract_row_raise _ _ R)
      as [(-> & _)|[(-> & _)|([->| ->] & _)]]; auto; congruence. }
  assert (C : caught e = true) by (destruct K as [->|[->| ->]]; reflexivity).
  assert (P : process_slot cve_table slot st = Ok (print (MsgRowError e) st)).
  { unfold process_slot. rewrite F, R, C. reflexivity. }
  repeat split; auto.
  - unfold slot_yield. rewrite F, R. reflexivity.
  - simpl. rewrite P. reflexivity.
Qed.

Lemma caught_row_failure_is_local_witness :
  (AttributeError = AttributeError \/ AttributeError = IndexError
   \/ AttributeError = ValueError)
  /\ process_slot Fixture.no_summary 0 initial =
     Ok (print (MsgRowError AttributeError) initial)
  /\ all_vulns (print (MsgRowError AttributeError) initial) =
     all_vulns initial
  /\ slot_yield Fixture.no_summary 0 = []
  /\ for_each (process_slot Fixture.no_summary) [0; 1]%nat initial =
     for_each (process_slot Fixture.no_summary) [1%nat]
              (print (MsgRowError AttributeError) initial).
Proof.
  apply (caught_row_failure_is_local Fixture.no_summary 0
           (Fixture.row_with (Some "/vuln/detail/CVE-2024-0001") None
              (Some "V3.1:9.8 CRITICAL"))
           AttributeError initial [1%nat]).
  - reflexivity.
  - reflexivity.
  - discriminate.
Defined.

(** C6, as stated, fails: a link element without [href] makes line 64
    raise [KeyError], which the [except] clause does not list; it ends the
    whole run, the well-formed row after it is never reached and nothing
    is written. *)
Lemma link_without_href_aborts_run :
  scrape_nist_cve Fixture.no_href Fixture.query = Raise KeyError.
Proof. vm_compute. reflexivity. Qed.

(** C2. Every record of the final list comes from a row of a fetched page
    whose span holds the marker and whose token [float] parsed to the
    score of the record; a row whose score is not parsed gives no record
    at all; the file, if one is written, holds the final list. *)
Theorem final_records_carry_parsed_scores fetch cpe_query st :
  scrape_nist_cve fetch cpe_query = Ok st ->
  (forall v, In v (all_vulns st) ->
     exists page slot row text token,
       served fetch page slot row
       /\ extract_row row = Ok (Some v)
       /\ row_cvss3 row = Some text
       /\ contains marker text = true
       /\ py_float token = Some (score v)
       /\ extract_score (row_cvss3 row) = Ok (Some (score v)))
  /\ (forall row,
        (forall x, extract_score (row_cvss3 row) <> Ok (Some x)) ->
        (forall v, extract_row row <> Ok (Some v))
        /\ forall cve_table slot,
             find_row cve_table slot = Some row ->
             slot_yield cve_table slot = [])
  /\ (forall name contents,
        In (name, contents) (files st) ->
        contents = csv_contents (all_vulns st)).
Proof.
  intros H. apply scrape_run in H. split; [|split].
  - intros v Hv.
    destruct (run_served _ _ _ _ H Hv) as (page & slot & row & S & X).
    pose proof X as X'.
    apply extract_row_some in X' as (link & summary & x & _ & _ & E & _ & ->).
    pose proof E as E'.
    apply extract_score_some in E' as (text & after & token & C & M & _ & _ & F).
    exists page, slot, row, text, token. simpl. auto 10.
  - intros row N.
    assert (X : forall v, extract_row row <> Ok (Some v)).
    { intros v Hv. apply extract_row_some in Hv
        as (_ & _ & x & _ & _ & E & _). exact (N x E). }
    split; auto.
    intros cve_table slot F. unfold slot_yield. rewrite F.
    destruct (extract_row row) as [[v|]|e] eqn:R; auto. elim (X v eq_refl).
  - intros name contents.
    destruct H as [F|S C|text total n st1 S C T N P];
      [simpl; tauto|simpl; tauto|].
    destruct (report_effect cpe_query st1) as (V & _ & F & _).
    apply for_each_pages_effect in P as (_ & _ & F1).
    rewrite F, F1, V. simpl. intros [[= <- <-]|[]]. reflexivity.
Qed.

Lemma final_records_carry_parsed_scores_witness :
  exists st,
    scrape_nist_cve Fixture.five Fixture.query = Ok st
    /\ (forall v, In v (all_vulns st) ->
          exists page slot row text token,
            served Fixture.five page slot row
            /\ extract_row row = Ok (Some v)
            /\ row_cvss3 row = Some text
            /\ contains marker text = true
            /\ py_float token = Some (score v)
            /\ extract_score (row_cvss3 row) = Ok (Some (score v)))
    /\ (forall row,
          (forall x, extract_score (row_cvss3 row) <> Ok (Some x)) ->
          (forall v, extract_row row <> Ok (Some v))
          /\ forall cve_table slot,
               find_row cve_table slot = Some row ->
               slot_yield cve_table slot = [])
    /\ (forall name contents,
          In (name, contents) (files st) ->
          contents = csv_contents (all_vulns st)).
Proof.
  eexists. split.
  - vm_compute. reflexivity.
  - apply (final_records_carry_parsed_scores Fixture.five Fixture.query).
    vm_compute. reflexivity.
Defined.

(** ** Ranking *)

Lemma no_nan_sort_desc l : no_nan (sort_desc l) -> no_nan l.
Proof.
  unfold no_nan. rewrite !Forall_forall. intros H v Hv.
  apply H. now apply sort_desc_In.
Qed.




(** ** Reporting *)

Lemma table_line_column v :
  exists before after,
    table_line v =
    (before ++ ljust 100 (truncated_desc (description v)) ++ after)%string.
Proof.
  unfold table_line.
  exists (ljust 20 (cve_number v) ++ " " ++ color (score v)
          ++ ljust 8 (float_str (score v)) ++ ESC ++ "[0m" ++ " ")%string,
         (" " ++ ljust 20 (published_date v) ++ " " ++ url v)%string.
  repeat rewrite append_assoc. reflexivity.
Qed.

(** C8. For every record of the final list the console shows a line whose
    summary column is, for a summary of more than 95 characters, its first
    95 characters, the 3 characters [...] and 2 blanks of padding, and for
    a shorter summary the summary itself, padded to 100 characters; the
    file holds a row with the whole summary. *)
Theorem long_summary_truncated_on_console_only fetch cpe_query st v :
  scrape_nist_cve fetch cpe_query = Ok st ->
  In v (all_vulns st) ->
  In (MsgVuln (table_line v)) (console st)
  /\ (exists before after,
        table_line v =
        (before ++ ljust 100 (truncated_desc (description v)) ++ after)%string)
  /\ ((95 < String.length (description v))%nat ->
        ljust 100 (truncated_desc (description v)) =
        (take 95 (description v) ++ "..." ++ "  ")%string
        /\ String.length (take 95 (description v)) = 95%nat
        /\ (take 95 (description v) ++ drop 95 (description v))%string =
           description v)
  /\ ((String.length (description v) <= 95)%nat ->
        ljust 100 (truncated_desc (description v)) =
        (description v
         ++ repeat_char " " (100 - String.length (description v)))%string)
  /\ files st = [(csv_filename cpe_query, csv_contents (all_vulns st))]
  /\ exists rows,
       Csv.read (csv_contents (all_vulns st)) = Some (fieldnames :: rows)
       /\ In [cve_number v; float_str (score v); description v;
              published_date v; url v] rows.
Proof.
  intros H Hv. apply scrape_run in H.
  destruct H as [F|S C|text total n st1 S C T N P];
    [simpl in Hv; contradiction|simpl in Hv; contradiction|].
  destruct (report_effect cpe_query st1) as (V & _ & F & Co).
  apply for_each_pages_effect in P as (_ & _ & F1).
  rewrite V in Hv. rewrite Co, F, F1, V.
  split; [|split; [|split; [|split; [|split]]]].
  - apply in_or_app. right. right. apply in_or_app. left.
    apply (in_map (fun v => MsgVuln (table_line v))). exact Hv.
  - apply table_line_column.
  - intros L. unfold truncated_desc.
    apply Nat.ltb_lt in L. rewrite L. apply Nat.ltb_lt in L.
    assert (K : String.length (take 95 (description v)) = 95%nat)
      by (apply length_take; lia).
    repeat split; auto using take_drop.
    unfold ljust. rewrite length_append, K. simpl.
    rewrite append_assoc. reflexivity.
  - intros L. unfold truncated_desc.
    destruct (95 <? String.length (description v))%nat eqn:B.
    + apply Nat.ltb_lt in B. lia.
    + reflexivity.
  - reflexivity.
  - exists (map cells (sort_desc (all_vulns st1))). split.
    + apply read_writerows.
    + apply (in_map cells) in Hv. exact Hv.
Qed.

Lemma long_summary_truncated_on_console_only_witness :
  exists st v,
    scrape_nist_cve Fixture.five Fixture.query = Ok st
    /\ In v (all_vulns st)
    /\ In (MsgVuln (table_line v)) (console st)
    /\ (exists before after,
          table_line v =
          (before ++ ljust 100 (truncated_desc (description v))
           ++ after)%string)
    /\ ((95 < String.length (description v))%nat ->
          ljust 100 (truncated_desc (description v)) =
          (take 95 (description v) ++ "..." ++ "  ")%string
          /\ String.length (take 95 (description v)) = 95%nat
          /\ (take 95 (description v) ++ drop 95 (description v))%string =
             description v)
    /\ ((String.length (description v) <= 95)%nat ->
          ljust 100 (truncated_desc (description v)) =
          (description v
           ++ repeat_char " " (100 - String.length (description v)))%string)
    /\ files st =
       [(csv_filename Fixture.query, csv_contents (all_vulns st))]
    /\ exists rows,
         Csv.read (csv_contents (all_vulns st)) = Some (fieldnames :: rows)
         /\ In [cve_number v; float_str (score v); description v;
                published_date v; url v] rows.
Proof.
  eexists. eexists. split; [vm_compute; reflexivity|].
  split; [left; reflexivity|].
  eapply (long_summary_truncated_on_console_only Fixture.five Fixture.query).
  - vm_compute. reflexivity.
  - left. reflexivity.
Defined.

(** A summary of 96 characters is cut, one of 95 is not. *)
Example truncation_at_95 :
  let d := repeat_char "a" 96 in
  truncated_desc d = (repeat_char "a" 95 ++ "...")%string
  /\ truncated_desc (repeat_char "a" 95) = repeat_char "a" 95.
Proof. split; vm_compute; reflexivity. Qed.


(** The scores of the CVSS scale, 0.0 to 10.0 in steps of 0.1, all print
    as a text that [float] reads back as the same value. *)
Example cvss_scores_read_back :
  forallb (fun k => match py_float (float_str (literal k 1)) with
                    | Some x => same_float x (literal k 1)
                    | None => false
                    end)
          (range 101) = true.
Proof. vm_compute. reflexivity. Qed.

(** The run of the end-to-end scenario: five rows with the scores 9.8, 7.1,
    3.2, 6.5 and 0.1 end up in the file in the order 9.8, 7.1, 6.5, 3.2,
    0.1. *)
Example five_rows_ranked :
  exists st,
    scrape_nist_cve Fixture.five Fixture.query = Ok st
    /\ map (fun v => float_str (score v)) (all_vulns st) =
       ["9.8"; "7.1"; "6.5"; "3.2"; "0.1"]%string
    /\ requests st = [0; 0]
    /\ exists contents rows,
         files st = [(csv_filename Fixture.query, contents)]
         /\ Csv.read contents = Some (fieldnames :: rows)
         /\ map (fun row => nth 1 row EmptyString) rows =
            ["9.8"; "7.1"; "6.5"; "3.2"; "0.1"]%string.
Proof.
  eexists. split; [vm_compute; reflexivity|].
  split; [vm_compute; reflexivity|]. split; [reflexivity|].
  do 2 eexists. split; [reflexivity|]. split; vm_compute; reflexivity.
Qed.

(* ================================================================== *)
(** * Part IV. Further properties of the script                        *)
(* ================================================================== *)

Import Url.

(** ** Loops that raise, loops that do not *)

Lemma for_each_ext {A} (f g : A -> state -> result state) l : forall st,
  (forall a s, In a l -> f a s = g a s) ->
  for_each f l st = for_each g l st.
Proof.
  induction l as [|a l IH]; intros st H; simpl; [reflexivity|].
  rewrite (H a st) by now left.
  destruct (g a st); simpl; [|reflexivity].
  apply IH. intros b s Hb. apply H. now right.
Qed.

Lemma for_each_ok {A} (body : A -> state -> result state) l :
  (forall a s, In a l -> exists s', body a s = Ok s') ->
  forall st, exists st', for_each body l st = Ok st'.
Proof.
  induction l as [|a l IH]; intros H st; simpl; [eauto|].
  destruct (H a st) as [s' ->]; [now left|]. simpl.
  apply IH. intros b s Hb. apply H. now right.
Qed.

Lemma for_each_raise {A} (body : A -> state -> result state) l e :
  forall st,
  for_each body l st = Raise e ->
  exists a s, In a l /\ body a s = Raise e.
Proof.
  induction l as [|a l IH]; intros st H; simpl in H; [discriminate|].
  destruct (body a st) as [s'|e'] eqn:B; simpl in H.
  - destruct (IH _ H) as (b & s & I & R). exists b, s.
    split; [now right|exact R].
  - injection H as ->. exists a, st. split; [now left|exact B].
Qed.

Lemma for_each_ok_inv {A} (body : A -> state -> result state) l :
  forall st st',
  for_each body l st = Ok st' ->
  forall a, In a l -> exists s s', body a s = Ok s'.
Proof.
  induction l as [|a l IH]; intros st st' H b I; [contradiction|].
  simpl in H. destruct (body a st) as [s'|e] eqn:B; simpl in H;
    [|discriminate].
  destruct I as [<-|I]; eauto.
Qed.

Lemma in_range page n : In page (range n) <-> 0 <= page < n.
Proof.
  unfold range. rewrite in_map_iff. split.
  - intros (k & <- & I). apply in_seq in I. lia.
  - intros H. exists (Z.to_nat page). split; [lia|]. apply in_seq. lia.
Qed.

(** ** The sign of a rounded quotient *)

Lemma shr_1_nonneg mrs : 0 <= shr_m mrs -> 0 <= shr_m (shr_1 mrs).
Proof.
  destruct mrs as [m r s]. simpl. intros H.
  destruct m as [|p|p]; [simpl; lia| |lia].
  destruct p; simpl; lia.
Qed.

Lemma iter_shr_1_nonneg p : forall mrs,
  0 <= shr_m mrs -> 0 <= shr_m (iter_pos shr_1 p mrs).
Proof.
  induction p as [p IH|p IH|]; intros mrs H; simpl.
  - apply IH, IH, shr_1_nonneg, H.
  - apply IH, IH, H.
  - apply shr_1_nonneg, H.
Qed.

Lemma shr_fexp_nonneg m e l :
  0 <= m -> 0 <= shr_m (fst (shr_fexp prec emax m e l)).
Proof.
  intros H. unfold shr_fexp, shr.
  assert (H0 : 0 <= shr_m (shr_record_of_loc m l))
    by (destruct l as [|[]]; exact H).
  destruct (SpecFloat.fexp prec emax (Zdigits2 m + e) - e); simpl; auto.
  now apply iter_shr_1_nonneg.
Qed.

(** Rounding keeps the sign it is given and gives no NaN. *)
Lemma round_aux_sign s q e l :
  0 <= q ->
  match binary_round_aux prec emax s q e l with
  | S754_zero s' | S754_infinity s' | S754_finite s' _ _ => s' = s
  | S754_nan => False
  end.
Proof.
  intros H. unfold binary_round_aux.
  pose proof (shr_fexp_nonneg q e l H) as H1.
  destruct (shr_fexp prec emax q e l) as [mrs' e'].
  simpl in H1.
  assert (H2 : 0 <= round_nearest_even (shr_m mrs') (loc_of_shr_record mrs')).
  { destruct (loc_of_shr_record mrs') as [|[]]; simpl; try lia.
    destruct (Z.even (shr_m mrs')); lia. }
  pose proof (shr_fexp_nonneg _ e' loc_Exact H2) as H3.
  destruct (shr_fexp prec emax _ e' loc_Exact) as [mrs'' e''].
  simpl in H3.
  destruct (shr_m mrs'') as [|p|p]; try lia; [reflexivity|].
  destruct (e'' <=? emax - prec); reflexivity.
Qed.

(** A quotient by the page size is a zero or a finite float with the sign
    of the total. *)
Lemma true_div_sign a x :
  true_div a results_per_page = Ok x ->
  match x with
  | S754_zero _ => True
  | S754_finite s _ _ => s = (a <? 0)
  | _ => False
  end.
Proof.
  unfold true_div, results_per_page.
  change (20 =? 0) with false. cbv iota.
  destruct (a =? 0); [intros [= <-]; exact I|].
  pose proof (Z.abs_nonneg a) as Ha.
  unfold SFdiv_core_binary.
  set (m' := match _ - _ - _ with 0 => _ | Z.pos _ => _ | Z.neg _ => _ end).
  assert (Hm : 0 <= m').
  { unfold m'. destruct (_ - _ - _); try lia.
    rewrite Z.shiftl_mul_pow2 by lia.
    apply Z.mul_nonneg_nonneg; [lia|]. apply Z.pow_nonneg. lia. }
  pose proof (Z_div_mod m' (Z.abs 20) ltac:(reflexivity)) as D.
  destruct (Z.div_eucl m' (Z.abs 20)) as [q r].
  change (Z.abs 20) with 20 in D.
  assert (Hq : 0 <= q) by nia.
  pose proof (round_aux_sign (xorb (a <? 0) (20 <? 0)) q
                (Z.min (SpecFloat.fexp prec emax
                          (Zdigits2 (Z.abs a) + 0 - (Zdigits2 20 + 0)))
                       (0 - 0))
                (new_location 20 r) Hq) as S.
  change (Z.abs 20) with 20.
  destruct (binary_round_aux _ _ _ _ _ _); try discriminate;
    intros [= <-]; auto.
  rewrite S. change (20 <? 0) with false. now rewrite xorb_false_r.
Qed.


Lemma num_pages_nonpositive total n :
  total <= 0 -> num_pages_of total = Ok n -> n <= 0.
Proof.
  intros T. unfold num_pages_of.
  destruct (true_div total results_per_page) as [x|e'] eqn:D; simpl;
    [|discriminate].
  destruct (Z.eq_dec total 0) as [->|N].
  { vm_compute in D. injection D as <-. simpl. intros [= <-]. lia. }
  apply true_div_sign in D.
  destruct x as [s|s| |s m e]; try contradiction.
  - intros [= <-]. lia.
  - subst s. replace (total <? 0) with true by (symmetry; apply Z.ltb_lt; lia).
    unfold ceil. cbv beta iota zeta. intros [= <-].
    destruct (0 <=? e) eqn:E.
    + apply Z.leb_le in E. pose proof (Z.pow_nonneg 2 e ltac:(lia)).
      destruct (2 ^ e); lia.
    + apply Z.leb_gt in E.
      change (- Z.neg m) with (Z.pos m).
      assert (0 <= Z.pos m / 2 ^ (- e)); [|lia].
      apply Z.div_pos; [lia|]. apply Z.pow_pos_nonneg; lia.
Qed.

Lemma range_nonpositive n : n <= 0 -> range n = [].
Proof.
  intros H. unfold range. destruct n; try lia; reflexivity.
Qed.

(** ** The exceptions that end a run *)

Lemma lacks_href_raises row :
  lacks_href row <-> extract_row row = Raise KeyError.
Proof.
  split.
  - intros (a & L & H). unfold extract_row. rewrite L, H. reflexivity.
  - intros H. destruct (extract_row_raise _ _ H)
      as [(_ & a & L & N)|[(E & _)|([E|E] & _)]]; try discriminate.
    exists a. auto.
Qed.

(** A turn on a slot raises only for a link without [href]. *)
Lemma process_slot_raise cve_table slot st e :
  process_slot cve_table slot st = Raise e ->
  e = KeyError
  /\ exists row, find_row cve_table slot = Some row /\ lacks_href row.
Proof.
  unfold process_slot.
  destruct (find_row cve_table slot) as [row|]; [|discriminate].
  destruct (extract_row row) as [[v|]|e'] eqn:X; try discriminate.
  destruct (caught e') eqn:C; [discriminate|].
  intros [= <-].
  destruct (extract_row_raise _ _ X)
    as [(-> & a & L & N)|[(-> & _)|([->| ->] & _)]]; try discriminate.
  split; [reflexivity|]. exists row. split; [reflexivity|].
  exists a. auto.
Qed.

Lemma process_page_raise fetch page st e :
  process_page fetch page st = Raise e ->
  e = KeyError
  /\ exists slot row, served fetch page slot row /\ lacks_href row.
Proof.
  unfold process_page.
  destruct (doc_table (content (fetch (page * results_per_page))))
    as [cve_table|] eqn:T; [|discriminate].
  intros H. apply for_each_raise in H as (slot & s & I & R).
  apply in_seq in I.
  apply process_slot_raise in R as (-> & row & F & L).
  split; [reflexivity|]. exists slot, row. split; [|exact L].
  exists cve_table. repeat split; auto. lia.
Qed.



(** X2. Once the pages are planned, the run completes exactly when no row
    it looks at (the first row of each index below 20, on each planned
    page) has a link without [href]: nothing else in a page can end it. *)
Theorem completes_iff_every_link_has_href fetch cpe_query text total n :
  status_code (fetch 0) = 200 ->
  doc_count (content (fetch 0)) = Some text ->
  py_int (replace "," "" text) = Some total ->
  num_pages_of total = Ok n ->
  (exists st, scrape_nist_cve fetch cpe_query = Ok st)
  <-> (forall row, probed fetch n row -> ~ lacks_href row).
Proof.
  intros S C T N. rewrite (scrape_complete _ _ _ _ _ S C T N).
  split.
  - intros (st & H) row (page & slot & B & cve_table & D & L & F) K.
    destruct (for_each (process_page fetch) (range n)
                (print (MsgTotal total) (get 0 initial)))
      as [st1|] eqn:P; simpl in H; [|discriminate].
    assert (I : In page (range n)) by now apply in_range.
    destruct (for_each_ok_inv _ _ _ _ P page I) as (s & s' & Q).
    unfold process_page in Q. rewrite D in Q.
    assert (J : In slot (seq 0 20)) by (apply in_seq; lia).
    destruct (for_each_ok_inv _ _ _ _ Q slot J) as (u & u' & R).
    unfold process_slot in R. rewrite F in R.
    rewrite (proj1 (lacks_href_raises row) K) in R. discriminate.
  - intros H.
    destruct (for_each_ok (process_page fetch) (range n)) with
      (st := print (MsgTotal total) (get 0 initial)) as [st1 ->].
    + intros page s I.
      destruct (process_page fetch page s) as [s'|e] eqn:P; [eauto|].
      apply process_page_raise in P as (_ & slot & row & Sv & L).
      exfalso. apply (H row); [|exact L].
      exists page, slot. split; [|exact Sv]. now apply in_range.
    + simpl. eauto.
Qed.

Lemma completes_iff_every_link_has_href_witness :
  (exists st, scrape_nist_cve Fixture.five Fixture.query = Ok st)
  <-> (forall row, probed Fixture.five 1 row -> ~ lacks_href row).
Proof.
  apply (completes_iff_every_link_has_href
           Fixture.five Fixture.query "5" 5 1); reflexivity.
Defined.

(** ** What a run prints *)

Lemma process_slot_console cve_table slot st st' :
  process_slot cve_table slot st = Ok st' ->
  console st' = console st ++ slot_messages cve_table slot.
Proof.
  unfold process_slot, slot_messages.
  destruct (find_row cve_table slot) as [row|].
  - destruct (extract_row row) as [[v|]|e].
    + intros [= <-]. simpl. now rewrite app_nil_r.
    + intros [= <-]. now rewrite app_nil_r.
    + destruct (caught e); [|discriminate]. intros [= <-]. reflexivity.
  - intros [= <-]. now rewrite app_nil_r.
Qed.

Lemma for_each_slots_console cve_table slots : forall st st',
  for_each (process_slot cve_table) slots st = Ok st' ->
  console st' = console st ++ flat_map (slot_messages cve_table) slots.
Proof.
  induction slots as [|slot slots IH]; simpl; intros st st' H.
  - injection H as <-. now rewrite app_nil_r.
  - destruct (process_slot cve_table slot st) as [st1|] eqn:E;
      simpl in H; [|discriminate].
    apply process_slot_console in E. apply IH in H.
    rewrite H, E, app_assoc. reflexivity.
Qed.

Lemma process_page_console fetch page st st' :
  process_page fetch page st = Ok st' ->
  console st' = console st ++ page_messages fetch page.
Proof.
  unfold process_page, page_messages.
  destruct (doc_table (content (fetch (page * results_per_page))))
    as [cve_table|].
  - intros H. apply for_each_slots_console in H. exact H.
  - intros [= <-]. reflexivity.
Qed.

Lemma for_each_pages_console fetch pages : forall st st',
  for_each (process_page fetch) pages st = Ok st' ->
  console st' = console st ++ flat_map (page_messages fetch) pages.
Proof.
  induction pages as [|page pages IH]; simpl; intros st st' H.
  - injection H as <-. now rewrite app_nil_r.
  - destruct (process_page fetch page st) as [st1|] eqn:E;
      simpl in H; [|discriminate].
    apply process_page_console in E. apply IH in H.
    rewrite H, E, app_assoc. reflexivity.
Qed.

(** X3. The console of a run that goes through its pages, line by line:
    the total; for each page in order either the one line telling that
    the page has no table, or one error line for each slot whose row
    raised a caught exception, in slot order; the table header; one line
    for each record of the final list, in its order; the line naming the
    file.  Nothing is printed for an empty slot, for a row without score,
    or for a row that gave a record. *)
Theorem console_of_a_completed_run fetch cpe_query text total n st :
  status_code (fetch 0) = 200 ->
  doc_count (content (fetch 0)) = Some text ->
  py_int (replace "," "" text) = Some total ->
  num_pages_of total = Ok n ->
  scrape_nist_cve fetch cpe_query = Ok st ->
  console st =
  MsgTotal total
  :: flat_map (page_messages fetch) (range n)
  ++ MsgTableHeader
  :: map (fun v => MsgVuln (table_line v)) (all_vulns st)
  ++ [MsgWritten (csv_filename cpe_query)].
Proof.
  intros S C T N H.
  rewrite (scrape_complete _ _ _ _ _ S C T N) in H.
  destruct (for_each (process_page fetch) (range n)
              (print (MsgTotal total) (get 0 initial))) as [st1|] eqn:P;
    simpl in H; [|discriminate].
  injection H as <-.
  apply for_each_pages_console in P.
  destruct (report_effect cpe_query st1) as (V & _ & _ & Co).
  rewrite Co, V, P. reflexivity.
Qed.

Lemma console_of_a_completed_run_witness :
  exists st,
    scrape_nist_cve Fixture.five Fixture.query = Ok st
    /\ console st =
       MsgTotal 5
       :: flat_map (page_messages Fixture.five) (range 1)
       ++ MsgTableHeader
       :: map (fun v => MsgVuln (table_line v)) (all_vulns st)
       ++ [MsgWritten (csv_filename Fixture.query)].
Proof.
  eexists. split; [vm_compute; reflexivity|].
  apply (console_of_a_completed_run Fixture.five Fixture.query "5" 5 1);
    vm_compute; reflexivity.
Defined.

(** ** How many records a run can give *)

Lemma length_flat_map_le {A B} (f : A -> list B) k l :
  (forall a, List.length (f a) <= k)%nat ->
  (List.length (flat_map f l) <= k * List.length l)%nat.
Proof.
  intros H. induction l as [|a l IH]; simpl; [lia|].
  rewrite length_app. specialize (H a). lia.
Qed.

Lemma length_slot_yield cve_table slot :
  (List.length (slot_yield cve_table slot) <= 1)%nat.
Proof.
  unfold slot_yield. destruct (find_row cve_table slot) as [row|]; [|simpl; lia].
  destruct (extract_row row) as [[v|]|e]; simpl; lia.
Qed.

Lemma length_page_yield fetch page :
  (List.length (page_yield fetch page) <= 20)%nat.
Proof.
  unfold page_yield.
  destruct (doc_table (content (fetch (page * results_per_page))))
    as [cve_table|]; [|simpl; lia].
  pose proof (length_flat_map_le (slot_yield cve_table) 1 (seq 0 20)
                (length_slot_yield cve_table)) as H.
  rewrite length_seq in H. lia.
Qed.

(** X4. A page gives at most 20 records, however many rows its table
    holds, and a run over [n] pages ends with at most [20 * n] records.
    The bound comes from the page count, not from the total: the script
    never compares the number of records with the total it read. *)
Theorem at_most_twenty_records_per_page fetch cpe_query text total n st :
  status_code (fetch 0) = 200 ->
  doc_count (content (fetch 0)) = Some text ->
  py_int (replace "," "" text) = Some total ->
  num_pages_of total = Ok n ->
  scrape_nist_cve fetch cpe_query = Ok st ->
  (List.length (all_vulns st) <= 20 * Z.to_nat n)%nat
  /\ forall page, (List.length (page_yield fetch page) <= 20)%nat.
Proof.
  intros S C T N H. split; [|intros; apply length_page_yield].
  apply scrape_run in H.
  destruct (run_vulns _ _ _ H) as [E|(text' & total' & n' & C' & T' & N' & E)].
  - rewrite E. simpl. lia.
  - rewrite C in C'. injection C' as <-.
    rewrite T in T'. injection T' as <-.
    rewrite N in N'. injection N' as <-.
    rewrite E, <- (Permutation_length (sort_desc_perm _)).
    unfold extracted.
    pose proof (length_flat_map_le (page_yield fetch) 20 (range n)
                  (length_page_yield fetch)) as L.
    unfold range in L at 2. rewrite length_map, length_seq in L. exact L.
Qed.

Lemma at_most_twenty_records_per_page_witness :
  exists st,
    scrape_nist_cve Fixture.five Fixture.query = Ok st
    /\ (List.length (all_vulns st) <= 20 * Z.to_nat 1)%nat
    /\ forall page, (List.length (page_yield Fixture.five page) <= 20)%nat.
Proof.
  eexists. split; [vm_compute; reflexivity|].
  apply (at_most_twenty_records_per_page Fixture.five Fixture.query "5" 5 1);
    vm_compute; reflexivity.
Defined.

(** ** A total of zero or below *)

(** X5. [int] accepts a sign, and for a total of zero or below the page
    count is zero or below, so the page loop does not run: the only
    request is the discovery request, the console shows the total, the
    table header and the file line, and the file holds the header row
    only. *)
Theorem nonpositive_total_fetches_no_page fetch cpe_query text total n :
  status_code (fetch 0) = 200 ->
  doc_count (content (fetch 0)) = Some text ->
  py_int (replace "," "" text) = Some total ->
  num_pages_of total = Ok n ->
  total <= 0 ->
  n <= 0
  /\ exists st,
       scrape_nist_cve fetch cpe_query = Ok st
       /\ requests st = [0]
       /\ all_vulns st = []
       /\ console st = [MsgTotal total; MsgTableHeader;
                        MsgWritten (csv_filename cpe_query)]
       /\ files st = [(csv_filename cpe_query, csv_contents [])].
Proof.
  intros S C T N H.
  pose proof (num_pages_nonpositive _ _ H N) as Hn.
  split; [exact Hn|].
  rewrite (scrape_complete _ _ _ _ _ S C T N), (range_nonpositive _ Hn).
  eexists. split; [reflexivity|].
  repeat split.
Qed.

Lemma nonpositive_total_fetches_no_page_witness :
  -2 <= 0
  /\ exists st,
       scrape_nist_cve (Fixture.serve "-45" None) Fixture.query = Ok st
       /\ requests st = [0]
       /\ all_vulns st = []
       /\ console st = [MsgTotal (-45); MsgTableHeader;
                        MsgWritten (csv_filename Fixture.query)]
       /\ files st = [(csv_filename Fixture.query, csv_contents [])].
Proof.
  apply (nonpositive_total_fetches_no_page
           (Fixture.serve "-45" None) Fixture.query "-45" (-45) (-2));
    vm_compute; try reflexivity.
  discriminate.
Defined.

(** ** A positive total *)

(** The shifter divides the mantissa by a power of two. *)
Lemma iter_shr_1_div p : forall mrs,
  0 <= shr_m mrs ->
  shr_m (iter_pos shr_1 p mrs) = shr_m mrs / 2 ^ Z.pos p.
Proof.
  induction p as [p IH|p IH|]; intros mrs H; cbn [iter_pos].
  - rewrite IH by (apply iter_shr_1_nonneg, shr_1_nonneg, H).
    rewrite IH by (apply shr_1_nonneg, H).
    destruct mrs as [m r s]. cbn [shr_m] in H.
    rewrite shr_1_spec by exact H. cbn [shr_m].
    pose proof (Z.pow_pos_nonneg 2 (Z.pos p) ltac:(lia) ltac:(lia)) as P.
    rewrite !Z.div_div by lia. f_equal.
    rewrite <- Z.pow_add_r, <- Z.pow_succ_r by lia. f_equal. lia.
  - rewrite IH by (apply iter_shr_1_nonneg, H).
    rewrite IH by exact H.
    pose proof (Z.pow_pos_nonneg 2 (Z.pos p) ltac:(lia) ltac:(lia)) as P.
    rewrite !Z.div_div by lia. f_equal.
    rewrite <- Z.pow_add_r by lia. f_equal. lia.
  - destruct mrs as [m r s]. cbn [shr_m] in H.
    rewrite shr_1_spec by exact H. reflexivity.
Qed.

(** A positive mantissa stays positive when it is brought to 53 digits,
    and the exponent does not go down. *)
Lemma shr_fexp_positive q e l :
  0 < q -> -1022 <= e ->
  0 < shr_m (fst (shr_fexp prec emax q e l))
  /\ e <= snd (shr_fexp prec emax q e l).
Proof.
  intros Hq He. unfold shr_fexp, SpecFloat.fexp, emin, prec, emax.
  rewrite (Zdigits2_log2 q Hq).
  pose proof (Z.log2_nonneg q) as Hl.
  pose proof (Z.log2_spec q Hq) as [Hlo _].
  replace (Z.max (Z.log2 q + 1 + e - 53) (3 - 1024 - 53) - e)
    with (Z.log2 q - 52) by lia.
  assert (M : shr_m (shr_record_of_loc q l) = q)
    by (destruct l as [|[]]; reflexivity).
  unfold shr. destruct (Z.log2 q - 52) as [|p|p] eqn:E; cbn [fst snd].
  - rewrite M. lia.
  - rewrite iter_shr_1_div by (rewrite M; lia). rewrite M.
    split; [|lia].
    apply Z.lt_le_trans with (2 ^ 52); [reflexivity|].
    apply Z.div_le_lower_bound; [apply Z.pow_pos_nonneg; lia|].
    rewrite <- Z.pow_add_r by lia.
    replace (Z.pos p + 52) with (Z.log2 q) by lia. exact Hlo.
  - rewrite M. lia.
Qed.

(** A positive mantissa is rounded to a positive float or to an
    infinity. *)
Lemma round_aux_positive q e l :
  0 < q -> -1022 <= e ->
  match binary_round_aux prec emax false q e l with
  | S754_finite false _ _ | S754_infinity false => True
  | _ => False
  end.
Proof.
  intros Hq He. unfold binary_round_aux.
  destruct (shr_fexp_positive q e l Hq He) as [H1 E1].
  destruct (shr_fexp prec emax q e l) as [mrs' e']. cbn [fst snd] in H1, E1.
  assert (H2 : 0 < round_nearest_even (shr_m mrs') (loc_of_shr_record mrs')).
  { destruct (loc_of_shr_record mrs') as [|[]]; simpl; try lia.
    destruct (Z.even (shr_m mrs')); lia. }
  destruct (shr_fexp_positive _ e' loc_Exact H2 ltac:(lia)) as [H3 _].
  destruct (shr_fexp prec emax _ e' loc_Exact) as [mrs'' e''].
  cbn [fst] in H3.
  destruct (shr_m mrs'') as [|p|p]; try lia.
  destruct (e'' <=? emax - prec); exact I.
Qed.

(** The quotient of a positive total by the page size is a positive
    float. *)
Lemma true_div_positive total x :
  0 < total -> true_div total results_per_page = Ok x ->
  exists m e, x = S754_finite false m e.
Proof.
  intros Ht. unfold true_div, results_per_page.
  change (20 =? 0) with false. cbv iota.
  destruct (total =? 0) eqn:B; [apply Z.eqb_eq in B; lia|]. clear B.
  destruct (total <? 0) eqn:B; [apply Z.ltb_lt in B; lia|]. clear B.
  rewrite (Z.abs_eq total) by lia.
  change (Z.abs 20) with 20. change (xorb false (20 <? 0)) with false.
  unfold SFdiv_core_binary. change (Zdigits2 20) with 5.
  rewrite (Zdigits2_log2 total Ht).
  pose proof (Z.log2_nonneg total) as Hl.
  pose proof (Z.log2_spec total Ht) as [Hlo _].
  set (d := Z.log2 total + 1) in *.
  assert (Em : Z.min (SpecFloat.fexp prec emax (d + 0 - (5 + 0))) (0 - 0) =
               Z.min (d - 58) 0)
    by (unfold SpecFloat.fexp, emin, prec, emax; lia).
  rewrite Em.
  set (s := 0 - 0 - Z.min (d - 58) 0).
  assert (Hs : 0 <= s) by (unfold s; lia).
  assert (Sh : match s with
               | 0 => total
               | Z.pos _ => Z.shiftl total s
               | Z.neg _ => 0
               end = total * 2 ^ s).
  { destruct s eqn:S; try lia.
    rewrite <- S, Z.shiftl_mul_pow2 by lia. reflexivity. }
  rewrite Sh.
  assert (Big : 2 ^ 57 <= total * 2 ^ s).
  { destruct (Z_lt_le_dec d 58) as [L|L].
    - replace s with (58 - d) by (unfold s; lia).
      replace 57 with (Z.log2 total + (58 - d)) by (unfold d; lia).
      rewrite Z.pow_add_r by lia.
      apply Z.mul_le_mono_nonneg_r; [apply Z.pow_nonneg; lia|exact Hlo].
    - replace s with 0 by (unfold s; lia).
      rewrite Z.pow_0_r, Z.mul_1_r.
      apply Z.le_trans with (2 ^ Z.log2 total); [|exact Hlo].
      apply Z.pow_le_mono_r; unfold d in L; lia. }
  change (2 ^ 57) with 144115188075855872 in Big.
  pose proof (Z_div_mod (total * 2 ^ s) 20 ltac:(lia)) as D.
  destruct (Z.div_eucl (total * 2 ^ s) 20) as [q r].
  assert (Hq : 0 < q) by lia.
  pose proof (round_aux_positive q (Z.min (d - 58) 0) (new_location 20 r) Hq
                ltac:(lia)) as R.
  destruct (binary_round_aux _ _ _ _ _ _) as [[]|[]| |[] m e];
    try contradiction; try discriminate.
  intros [= <-]. eauto.
Qed.

Lemma num_pages_positive total n :
  0 < total -> num_pages_of total = Ok n -> 0 < n.
Proof.
  intros Ht. unfold num_pages_of.
  destruct (true_div total results_per_page) as [x|e'] eqn:D; simpl;
    [|discriminate].
  destruct (true_div_positive _ _ Ht D) as (m & e & ->).
  unfold ceil. cbv beta iota zeta. intros [= <-].
  destruct (0 <=? e) eqn:E.
  - apply Z.leb_le in E.
    pose proof (Z.pow_pos_nonneg 2 e ltac:(lia) E).
    destruct (2 ^ e); lia.
  - apply Z.leb_gt in E.
    pose proof (Z.pow_pos_nonneg 2 (- e) ltac:(lia) ltac:(lia)) as P.
    assert (- Z.pos m / 2 ^ (- e) < 0); [|lia].
    apply Z.div_lt_upper_bound; lia.
Qed.

(** X6. Whatever its size, a positive total makes the run fetch at least
    one page: the rounding of the quotient can lose pages of a very large
    total, never all of them.  With X5: once the page count is computed,
    page 0 is fetched exactly when the total is positive, and it is then
    requested a second time with the URL of the discovery request. *)
Theorem positive_total_fetches_a_page fetch cpe_query text total n st :
  status_code (fetch 0) = 200 ->
  doc_count (content (fetch 0)) = Some text ->
  py_int (replace "," "" text) = Some total ->
  num_pages_of total = Ok n ->
  scrape_nist_cve fetch cpe_query = Ok st ->
  (0 < total <-> 0 < n)
  /\ (0 < total ->
      exists offsets, requests st = 0 :: 0 :: offsets
                      /\ List.length offsets = Z.to_nat (n - 1)).
Proof.
  intros Hs C T N H.
  assert (I : 0 < total <-> 0 < n).
  { split.
    - intros Ht. exact (num_pages_positive _ _ Ht N).
    - intros Hn. destruct (Z_lt_le_dec 0 total) as [L|L]; [exact L|].
      pose proof (num_pages_nonpositive _ _ L N). lia. }
  split; [exact I|]. intros Ht. apply I in Ht.
  rewrite (pages_requested _ _ _ _ _ _ Hs C T N H).
  unfold range.
  replace (Z.to_nat n) with (S (Z.to_nat (n - 1))) by lia.
  cbn [seq map]. eexists. split; [reflexivity|].
  rewrite !length_map, length_seq. reflexivity.
Qed.

Lemma positive_total_fetches_a_page_witness :
  exists st,
    scrape_nist_cve Fixture.five Fixture.query = Ok st
    /\ (0 < 5 <-> 0 < 1)
    /\ (0 < 5 ->
        exists offsets, requests st = 0 :: 0 :: offsets
                        /\ List.length offsets = Z.to_nat (1 - 1)).
Proof.
  eexists. split; [vm_compute; reflexivity|].
  apply (positive_total_fetches_a_page Fixture.five Fixture.query "5" 5 1);
    vm_compute; reflexivity.
Defined.

(** ** The count text *)











(** ** Rows are looked up by index *)

Lemma find_row_app t1 t2 k :
  find_row (t1 ++ t2) k =
  match find_row t1 k with
  | Some r => Some r
  | None => find_row t2 k
  end.
Proof.
  induction t1 as [|[j r] t1 IH]; simpl; [reflexivity|].
  destruct (Nat.eqb j k); auto.
Qed.

Lemma find_row_In t k r : find_row t k = Some r -> In (k, r) t.
Proof.
  induction t as [|[j r'] t IH]; simpl; [discriminate|].
  destruct (Nat.eqb_spec j k) as [->|N].
  - intros [= ->]. now left.
  - intros H. right. auto.
Qed.

Lemma In_find_row t k r :
  NoDup (map fst t) -> In (k, r) t -> find_row t k = Some r.
Proof.
  induction t as [|[j r'] t IH]; simpl; [contradiction|].
  intros D [E|I].
  - injection E as -> ->. now rewrite Nat.eqb_refl.
  - inversion D as [|? ? N D']; subst.
    destruct (Nat.eqb_spec j k) as [->|_]; [|auto].
    elim N. apply in_map_iff. exists (k, r). auto.
Qed.

(** The loop over the slots sees a table through [find] on the indices
    0 to 19. *)
Lemma slots_ext t t' st :
  (forall k, (k < 20)%nat -> find_row t k = find_row t' k) ->
  for_each (process_slot t) (seq 0 20) st =
  for_each (process_slot t') (seq 0 20) st.
Proof.
  intros H. apply for_each_ext. intros k s I.
  apply in_seq in I. unfold process_slot. rewrite H by lia. reflexivity.
Qed.

(** X8. A row whose index is 20 or more, and a row whose index already
    occurs earlier in the table, have no effect on the page: with or
    without it the loop over the slots ends in the same state, or with
    the same exception. *)
Theorem unreachable_row_is_ignored t1 k r t2 st :
  (20 <= k)%nat \/ (exists r', find_row t1 k = Some r') ->
  for_each (process_slot (t1 ++ (k, r) :: t2)) (seq 0 20) st =
  for_each (process_slot (t1 ++ t2)) (seq 0 20) st.
Proof.
  intros H. apply slots_ext. intros j Hj.
  rewrite !find_row_app. simpl.
  destruct (find_row t1 j) eqn:F; [reflexivity|].
  destruct (Nat.eqb_spec k j) as [->|_]; [|reflexivity].
  destruct H as [H|(r' & H)]; [lia|congruence].
Qed.

Lemma unreachable_row_is_ignored_witness :
  for_each (process_slot
              ([(0%nat, Fixture.scored "9.8")]
               ++ (0%nat, Fixture.scored "7.5")
                  :: [(20%nat, Fixture.scored "5.0")]))
           (seq 0 20) initial =
  for_each (process_slot
              ([(0%nat, Fixture.scored "9.8")]
               ++ [(20%nat, Fixture.scored "5.0")]))
           (seq 0 20) initial.
Proof.
  apply (unreachable_row_is_ignored
           [(0%nat, Fixture.scored "9.8")] 0 (Fixture.scored "7.5")
           [(20%nat, Fixture.scored "5.0")] initial).
  right. exists (Fixture.scored "9.8"). reflexivity.
Defined.

(** X9. When no index occurs twice, the order of the rows in the document
    does not matter: the slots are visited in the order 0 to 19 whatever
    the order of the rows, so the records of a page are extracted in index
    order. *)
Theorem rows_found_by_index_not_position t t' st :
  NoDup (map fst t) ->
  Permutation t t' ->
  for_each (process_slot t) (seq 0 20) st =
  for_each (process_slot t') (seq 0 20) st.
Proof.
  intros D P. apply slots_ext. intros k _.
  assert (D' : NoDup (map fst t'))
    by (eapply Permutation_NoDup; [apply Permutation_map, P|exact D]).
  destruct (find_row t k) as [r|] eqn:F.
  - symmetry. apply In_find_row; [exact D'|].
    eapply Permutation_in; [exact P|]. now apply find_row_In.
  - destruct (find_row t' k) as [r|] eqn:F'; [|reflexivity].
    apply find_row_In in F'.
    apply (Permutation_in _ (Permutation_sym P)) in F'.
    apply (In_find_row _ _ _ D) in F'. congruence.
Qed.

Lemma rows_found_by_index_not_position_witness :
  for_each (process_slot [(0%nat, Fixture.scored "9.8");
                          (1%nat, Fixture.scored "7.5")])
           (seq 0 20) initial =
  for_each (process_slot [(1%nat, Fixture.scored "7.5");
                          (0%nat, Fixture.scored "9.8")])
           (seq 0 20) initial.
Proof.
  apply (rows_found_by_index_not_position
           [(0%nat, Fixture.scored "9.8"); (1%nat, Fixture.scored "7.5")]
           [(1%nat, Fixture.scored "7.5"); (0%nat, Fixture.scored "9.8")]
           initial).
  - simpl. repeat constructor; simpl; intuition discriminate.
  - apply perm_swap.
Defined.

(** ** The token after the marker *)

Lemma prefix_append (a s : string) : prefix a (a ++ s) = true.
Proof.
  induction a as [|c a IH]; simpl; [destruct s; reflexivity|].
  destruct (ascii_dec c c); [exact IH|congruence].
Qed.

Lemma contains_prefix sub s : prefix sub s = true -> contains sub s = true.
Proof. intros H. destruct s; simpl in *; rewrite H; reflexivity. Qed.

Lemma contains_append pre sub s :
  contains sub (pre ++ sub ++ s)%string = true.
Proof.
  induction pre as [|c pre IH].
  - change (contains sub (sub ++ s)%string = true).
    apply contains_prefix, prefix_append.
  - cbn [String.append contains]. rewrite IH. apply orb_true_r.
Qed.

Lemma contains_false_inv sub c r :
  contains sub (String c r) = false ->
  prefix sub (String c r) = false /\ contains sub r = false.
Proof. cbn [contains]. apply orb_false_iff. Qed.

(** No occurrence of the marker starts in a text without the marker and
    ends in a marker put after it: the marker does not overlap itself. *)
Lemma marker_no_overlap c pre s :
  contains marker (String c pre) = false ->
  prefix marker (String c pre ++ marker ++ s)%string = false.
Proof.
  intros H. apply contains_false_inv in H as [H _]. revert H.
  unfold marker.
  destruct pre as [|c1 [|c2 [|c3 [|c4 r]]]]; cbn [String.append prefix];
    repeat match goal with
           | |- context [ascii_dec ?a ?b] =>
               destruct (ascii_dec a b); try discriminate; try reflexivity
           end; auto.
  destruct r; discriminate.
Qed.

Lemma split_go_no_sep sep s :
  contains sep s = false -> split_go sep 0 s = (s, []).
Proof.
  induction s as [|c s IH]; intros H; [reflexivity|].
  apply contains_false_inv in H as [P C].
  cbn [split_go]. rewrite P, (IH C). reflexivity.
Qed.

Lemma split_at_first_marker pre s :
  contains marker pre = false ->
  split marker (pre ++ marker ++ s)%string = pre :: split marker s.
Proof.
  unfold split. induction pre as [|c pre IH]; intros H.
  - unfold marker. cbn. destruct (split_go "V3.1:" 0 s).
    destruct s; reflexivity.
  - pose proof (marker_no_overlap c pre s H) as P.
    apply contains_false_inv in H as [_ C]. specialize (IH C).
    cbn [String.append] in *. cbn [split_go]. rewrite P.
    destruct (split_go marker 0 (pre ++ marker ++ s)) as [seg rest].
    injection IH as -> ->. reflexivity.
Qed.

Lemma split_ws_space c s :
  is_space c = true -> split_ws (String c s) = split_ws s.
Proof.
  intros H. unfold split_ws. cbn [split_ws_go].
  destruct (split_ws_go s) as [tok rest]. rewrite H. reflexivity.
Qed.

Lemma split_ws_blanks ws s :
  all_chars is_space ws = true -> split_ws (ws ++ s) = split_ws s.
Proof.
  induction ws as [|c ws IH]; cbn [all_chars String.append]; intros H;
    [reflexivity|].
  apply andb_true_iff in H as [Hc Hw].
  rewrite split_ws_space by exact Hc. auto.
Qed.

Lemma split_ws_go_token tok rest :
  all_chars (fun c => negb (is_space c)) tok = true ->
  fst (split_ws_go rest) = EmptyString ->
  fst (split_ws_go (tok ++ rest)) = tok.
Proof.
  intros H R. induction tok as [|c tok IH]; [exact R|].
  cbn [all_chars] in H. apply andb_true_iff in H as [Hc Ht].
  apply negb_true_iff in Hc. specialize (IH Ht).
  cbn [String.append split_ws_go].
  destruct (split_ws_go (tok ++ rest)) as [t r]. simpl in IH. subst t.
  rewrite Hc. reflexivity.
Qed.

Lemma split_ws_first ws c tok rest :
  all_chars is_space ws = true ->
  all_chars (fun c => negb (is_space c)) (String c tok) = true ->
  (rest = EmptyString
   \/ exists d r, rest = String d r /\ is_space d = true) ->
  nth_error (split_ws (ws ++ String c tok ++ rest)) 0 = Some (String c tok).
Proof.
  intros W T R. rewrite split_ws_blanks by exact W.
  assert (E : fst (split_ws_go rest) = EmptyString).
  { destruct R as [->|(d & r & -> & D)]; [reflexivity|].
    cbn [split_ws_go]. destruct (split_ws_go r). rewrite D. reflexivity. }
  pose proof (split_ws_go_token _ _ T E) as F.
  unfold split_ws. destruct (split_ws_go (String c tok ++ rest)) as [t r].
  simpl in F. subst t. reflexivity.
Qed.

Lemma blanks_no_marker ws :
  all_chars is_space ws = true -> contains marker ws = false.
Proof.
  induction ws as [|c ws IH]; cbn [all_chars]; intros H; [reflexivity|].
  apply andb_true_iff in H as [Hc Hw].
  cbn [contains]. rewrite (IH Hw), orb_false_r.
  unfold marker. cbn [prefix].
  destruct (ascii_dec "V" c) as [<-|]; [discriminate|reflexivity].
Qed.

Lemma split_ws_only_blanks ws :
  all_chars is_space ws = true -> split_ws ws = [].
Proof.
  intros H. rewrite <- (append_nil_r ws), split_ws_blanks by exact H.
  reflexivity.
Qed.

(** X10. In a span text that holds the marker once, the score is what
    [float] makes of the first run of non-blank characters after the
    marker, whatever precedes the marker and whatever follows that run:
    the text of the severity after the number is not looked at, and a
    token that [float] rejects raises [ValueError].  When only blanks
    follow the marker, the subscript raises [IndexError]. *)
Theorem score_is_first_token_after_marker pre ws c tok rest :
  contains marker pre = false ->
  all_chars is_space ws = true ->
  all_chars (fun c => negb (is_space c)) (String c tok) = true ->
  (rest = EmptyString
   \/ exists d r, rest = String d r /\ is_space d = true) ->
  contains marker (ws ++ String c tok ++ rest) = false ->
  extract_score (Some (pre ++ marker ++ ws ++ String c tok ++ rest)%string) =
  match py_float (String c tok) with
  | Some x => Ok (Some x)
  | None => Raise ValueError
  end
  /\ extract_score (Some (pre ++ marker ++ ws)%string) = Raise IndexError.
Proof.
  intros P W T R N. split.
  - unfold extract_score.
    rewrite contains_append, split_at_first_marker by exact P.
    unfold split. rewrite (split_go_no_sep _ _ N).
    unfold subscript at 1. cbn [nth_error bind].
    unfold subscript. rewrite (split_ws_first _ _ _ _ W T R). reflexivity.
  - unfold extract_score.
    rewrite <- (append_nil_r ws) at 1.
    rewrite contains_append.
    rewrite split_at_first_marker by exact P.
    unfold split. rewrite (split_go_no_sep _ _ (blanks_no_marker _ W)).
    unfold subscript at 1. cbn [nth_error bind].
    rewrite (split_ws_only_blanks _ W). reflexivity.
Qed.

Lemma score_is_first_token_after_marker_witness :
  extract_score (Some "CVSS V3.1:  9.8 CRITICAL") =
  match py_float "9.8" with
  | Some x => Ok (Some x)
  | None => Raise ValueError
  end
  /\ extract_score (Some "CVSS V3.1:  ") = Raise IndexError.
Proof.
  apply (score_is_first_token_after_marker "CVSS " "  " "9" ".8" " CRITICAL");
    try reflexivity.
  right. exists " "%char, "CRITICAL". split; reflexivity.
Defined.

(** ** Where the fields of a record come from *)

(** X11. Every record of the final list takes its five fields from one row
    of a fetched page: the description is the text of the summary
    paragraph; the date is the text of the published-on span, or [N/A]
    without one; with a link, the number is the link text and the URL is
    the host followed by the [href]; without a link both are [N/A]. *)
Theorem record_fields_come_from_one_row fetch cpe_query st v :
  scrape_nist_cve fetch cpe_query = Ok st ->
  In v (all_vulns st) ->
  exists page slot row,
    served fetch page slot row
    /\ row_summary row = Some (description v)
    /\ published_date v =
       match row_published row with
       | Some text => text
       | None => not_available
       end
    /\ match row_link row with
       | Some a =>
           cve_number v = a_text a
           /\ exists href,
                a_href a = Some href /\ url v = (host ++ href)%string
       | None => cve_number v = not_available /\ url v = not_available
       end.
Proof.
  intros H I. apply scrape_run in H.
  destruct (run_served _ _ _ _ H I) as (page & slot & row & S & X).
  exists page, slot, row. split; [exact S|].
  apply extract_row_some in X as (link & summary & x & L & Su & _ & _ & ->).
  simpl. repeat split; auto.
  destruct (row_link row) as [a|].
  - destruct L as (href & Hh & ->). simpl. eauto.
  - subst link. auto.
Qed.

Lemma record_fields_come_from_one_row_witness :
  exists st v,
    scrape_nist_cve Fixture.five Fixture.query = Ok st
    /\ In v (all_vulns st)
    /\ exists page slot row,
         served Fixture.five page slot row
         /\ row_summary row = Some (description v)
         /\ published_date v =
            match row_published row with
            | Some text => text
            | None => not_available
            end
         /\ match row_link row with
            | Some a =>
                cve_number v = a_text a
                /\ exists href,
                     a_href a = Some href /\ url v = (host ++ href)%string
            | None => cve_number v = not_available /\ url v = not_available
            end.
Proof.
  eexists. eexists. split; [vm_compute; reflexivity|].
  split; [left; reflexivity|].
  eapply (record_fields_come_from_one_row Fixture.five Fixture.query).
  - vm_compute. reflexivity.
  - left. reflexivity.
Defined.

(** ** The colours of the table *)

Lemma color_red x : color x = red <-> float_ge x (literal 70 1) = true.
Proof.
  unfold color. destruct (float_ge x (literal 70 1)).
  - split; reflexivity.
  - destruct (float_ge x (literal 40 1)); split; discriminate.
Qed.

Lemma color_green x : color x = green <-> float_ge x (literal 40 1) = false.
Proof.
  unfold color.
  destruct (float_ge x (literal 70 1)) eqn:G7.
  - assert (G4 : float_ge x (literal 40 1) = true).
    { apply (float_ge_trans _ _ _ G7). vm_compute. reflexivity. }
    rewrite G4. split; discriminate.
  - destruct (float_ge x (literal 40 1)); split;
      try discriminate; reflexivity.
Qed.

(** The colour follows the score: above a red score all is red, below a
    green score all is green. *)
Lemma color_monotone x y :
  float_ge x y = true ->
  (color y = red -> color x = red) /\ (color x = green -> color y = green).
Proof.
  intros G. rewrite !color_red, !color_green. split.
  - intros R. exact (float_ge_trans _ _ _ G R).
  - intros N. destruct (float_ge y (literal 40 1)) eqn:Y; [|reflexivity].
    rewrite (float_ge_trans _ _ _ G Y) in N. discriminate.
Qed.

Lemma descending_app a l : descending (a ++ l) -> descending l.
Proof.
  induction a as [|u a IH]; [auto|].
  simpl. intros D. apply IH. exact (descending_tail _ _ D).
Qed.

Lemma run_descending fetch cpe_query st :
  run fetch cpe_query st -> no_nan (all_vulns st) -> descending (all_vulns st).
Proof.
  intros R N.
  destruct (run_vulns _ _ _ R) as [E|(text & total & n & _ & _ & _ & E)];
    rewrite E in *; [constructor|].
  apply sort_desc_descending, no_nan_sort_desc, N.
Qed.

(** X12. In the table of a run without a NaN score the colours come in
    blocks, red above yellow above green: a line above a red line is red,
    a line below a green line is green.  Every line has one of the three
    colours, and a NaN score is printed green. *)
Theorem table_colours_follow_ranking fetch cpe_query st a v b w c :
  scrape_nist_cve fetch cpe_query = Ok st ->
  no_nan (all_vulns st) ->
  all_vulns st = a ++ v :: b ++ w :: c ->
  (color (score w) = red -> color (score v) = red)
  /\ (color (score v) = green -> color (score w) = green)
  /\ (forall x, color x = red \/ color x = yellow \/ color x = green)
  /\ color S754_nan = green.
Proof.
  intros H N E. apply scrape_run in H.
  pose proof (run_descending _ _ _ H N) as D. rewrite E in D.
  apply descending_app in D.
  assert (G : float_ge (score v) (score w) = true).
  { apply (descending_head_max _ _ _ D). apply in_or_app. right. now left. }
  destruct (color_monotone _ _ G) as [M1 M2].
  split; [exact M1|]. split; [exact M2|]. split; [|reflexivity].
  intros x. unfold color, red, yellow, green.
  destruct (float_ge x (literal 70 1)); auto.
  destruct (float_ge x (literal 40 1)); auto.
Qed.

Lemma table_colours_follow_ranking_witness :
  exists st a v b w c,
    scrape_nist_cve Fixture.five Fixture.query = Ok st
    /\ all_vulns st = a ++ v :: b ++ w :: c
    /\ color (score v) = red
    /\ color (score w) = green
    /\ (color (score w) = red -> color (score v) = red)
    /\ (color (score v) = green -> color (score w) = green)
    /\ (forall x, color x = red \/ color x = yellow \/ color x = green)
    /\ color S754_nan = green.
Proof.
  eexists. exists []. eexists. eexists [_; _]. do 2 eexists.
  split; [vm_compute; reflexivity|].
  split; [reflexivity|].
  split; [vm_compute; reflexivity|].
  split; [vm_compute; reflexivity|].
  eapply (table_colours_follow_ranking
            Fixture.five Fixture.query _ [] _ [_; _]).
  - vm_compute. reflexivity.
  - repeat constructor.
  - reflexivity.
Defined.

(** ** The width of the summary column *)

Lemma length_repeat_char c n : String.length (repeat_char c n) = n.
Proof. induction n; simpl; congruence. Qed.

Lemma length_ljust n s :
  String.length (ljust n s) = Nat.max n (String.length s).
Proof.
  unfold ljust. rewrite length_append, length_repeat_char. lia.
Qed.

Lemma length_truncated_desc d :
  (String.length (truncated_desc d) <= 98)%nat.
Proof.
  unfold truncated_desc.
  destruct (Nat.ltb_spec 95 (String.length d)) as [L|L].
  - rewrite length_append, length_take by lia. simpl. lia.
  - lia.
Qed.

Lemma take_append (s t : string) : take (String.length s) (s ++ t) = s.
Proof.
  unfold take. induction s as [|c s IH]; simpl.
  - destruct t; reflexivity.
  - f_equal. exact IH.
Qed.

(** X13. The summary column of a table line is 100 characters wide for
    every summary, since a truncated summary has 98 characters.  Padding
    never cuts: a padded field has the larger of the width and its own
    length, and starts with the field itself, so a number or a date longer
    than its column is printed whole and shifts what follows. *)
Theorem summary_column_is_100_wide :
  (forall d, String.length (ljust 100 (truncated_desc d)) = 100%nat)
  /\ (forall n s, String.length (ljust n s) = Nat.max n (String.length s))
  /\ (forall n s, take (String.length s) (ljust n s) = s).
Proof.
  split; [|split].
  - intros d. rewrite length_ljust.
    pose proof (length_truncated_desc d). lia.
  - apply length_ljust.
  - intros n s. apply take_append.
Qed.

(** ** The name of the file *)

Lemma append_cancel_l (a x y : string) :
  (a ++ x)%string = (a ++ y)%string -> x = y.
Proof. induction a as [|c a IH]; simpl; [auto|]. intros [= H]. auto. Qed.

Lemma append_cancel_r (b : string) : forall x y : string,
  (x ++ b)%string = (y ++ b)%string -> x = y.
Proof.
  induction x as [|c x IH]; intros y H.
  - destruct y as [|d y]; [reflexivity|].
    apply (f_equal String.length) in H. simpl in H.
    rewrite length_append in H. lia.
  - destruct y as [|d y].
    + apply (f_equal String.length) in H. simpl in H.
      rewrite length_append in H. lia.
    + simpl in H. injection H as -> H. f_equal. auto.
Qed.

Lemma replace_colon_idempotent q :
  replace ":" "_" (replace ":" "_" q) = replace ":" "_" q.
Proof.
  induction q as [|c q IH]; simpl; [reflexivity|].
  destruct (Ascii.eqb c ":") eqn:E; simpl; [|rewrite E]; rewrite IH;
    reflexivity.
Qed.

Lemma replace_colon_no_colon q :
  all_chars (fun c => negb (Ascii.eqb c ":")) (replace ":" "_" q) = true.
Proof.
  induction q as [|c q IH]; simpl; [reflexivity|].
  destruct (Ascii.eqb c ":") eqn:E; simpl; [|rewrite E]; exact IH.
Qed.

(** X14. The file name depends on the query through its text with every
    colon replaced by an underscore, and on nothing else: two queries give
    the same file name exactly when these texts are equal, so a query and
    the same query with underscores for colons are written to one file.
    The part of the name that comes from the query holds no colon. *)
Theorem file_name_merges_colon_and_underscore q1 q2 :
  (csv_filename q1 = csv_filename q2 <->
   replace ":" "_" q1 = replace ":" "_" q2)
  /\ csv_filename (replace ":" "_" q1) = csv_filename q1
  /\ all_chars (fun c => negb (Ascii.eqb c ":")) (replace ":" "_" q1) = true.
Proof.
  split; [|split].
  - unfold csv_filename. split.
    + intros H. apply append_cancel_l in H.
      now apply append_cancel_r in H.
    + intros ->. reflexivity.
  - unfold csv_filename. rewrite replace_colon_idempotent. reflexivity.
  - apply replace_colon_no_colon.
Qed.

(** ** The encoded query and the request URL *)

Lemma all_chars_app p a b :
  all_chars p (a ++ b) = all_chars p a && all_chars p b.
Proof.
  induction a as [|c a IH]; simpl; [reflexivity|].
  rewrite IH, andb_assoc. reflexivity.
Qed.

Lemma quote_char_alphabet c :
  all_chars (fun c => safe c || Ascii.eqb c "%") (quote_char c) = true.
Proof. destruct c as [[] [] [] [] [] [] [] []]; reflexivity. Qed.

Lemma quote_alphabet s :
  all_chars (fun c => safe c || Ascii.eqb c "%") (quote s) = true.
Proof.
  induction s as [|c s IH]; simpl; [reflexivity|].
  rewrite all_chars_app, quote_char_alphabet, IH. reflexivity.
Qed.

Lemma unquote_quote_char c t :
  unquote (quote_char c ++ t) = String c (unquote t).
Proof. destruct c as [[] [] [] [] [] [] [] []]; reflexivity. Qed.

(** An encoded text is read back to the text it encodes. *)
Lemma unquote_quote s : unquote (quote s) = s.
Proof.
  induction s as [|c s IH]; simpl; [reflexivity|].
  rewrite unquote_quote_char, IH. reflexivity.
Qed.

(** X15. The encoded query is made of letters, digits and the characters
    [_ . - ~ /] and [%] only, so it holds none of the separators [& = ? #]
    of the URL it is put in; the encoding loses nothing, two different
    queries have different encodings; and a query made of characters that
    need no encoding is left as it is. *)
Theorem quote_is_url_safe_and_injective s :
  all_chars (fun c => safe c || Ascii.eqb c "%") (quote s) = true
  /\ (forall t, quote s = quote t -> s = t)
  /\ (all_chars safe s = true -> quote s = s).
Proof.
  split; [|split].
  - apply quote_alphabet.
  - intros t H. rewrite <- (unquote_quote s), H. apply unquote_quote.
  - induction s as [|c s IH]; simpl; [reflexivity|].
    intros H. apply andb_true_iff in H as [Hc Hs].
    rewrite (IH Hs). clear IH Hs. revert Hc.
    destruct c as [[] [] [] [] [] [] [] []]; (discriminate || reflexivity).
Qed.

(** *** Decimal rendering *)

Lemma digit_of_mod n :
  0 <= n ->
  digit_val (ascii_of_nat (48 + Z.to_nat (n mod 10))) = n mod 10
  /\ is_digit (ascii_of_nat (48 + Z.to_nat (n mod 10))) = true.
Proof.
  intros H. pose proof (Z.mod_pos_bound n 10 ltac:(lia)) as B.
  unfold digit_val, is_digit.
  rewrite nat_ascii_embedding by lia.
  split; [lia|].
  apply andb_true_iff. split; apply Nat.leb_le; lia.
Qed.

Lemma num_dec_go fuel : forall n acc,
  0 <= n < 10 ^ Z.of_nat fuel ->
  num (dec_go fuel n acc) = n * 10 ^ Z.of_nat (String.length acc) + num acc.
Proof.
  induction fuel as [|fuel IH]; intros n acc H.
  - simpl in H. assert (n = 0) by lia. subst. simpl. lia.
  - cbn [dec_go].
    destruct (digit_of_mod n ltac:(lia)) as [D _].
    set (c := ascii_of_nat (48 + Z.to_nat (n mod 10))) in *.
    assert (A : num (String c acc) =
                n mod 10 * 10 ^ Z.of_nat (String.length acc) + num acc)
      by (cbn [num]; rewrite D; reflexivity).
    destruct (n <? 10) eqn:L.
    + apply Z.ltb_lt in L. rewrite A, Z.mod_small by lia. reflexivity.
    + apply Z.ltb_ge in L.
      rewrite IH.
      * rewrite A. cbn [String.length].
        rewrite Nat2Z.inj_succ, Z.pow_succ_r by lia.
        pose proof (Z.div_mod n 10 ltac:(lia)). nia.
      * rewrite Nat2Z.inj_succ, Z.pow_succ_r in H by lia.
        split; [apply Z.div_pos; lia|].
        apply Z.div_lt_upper_bound; lia.
Qed.

(** The digits of [dec n] read back to [n]. *)
Lemma num_dec n : 0 <= n -> num (dec n) = n.
Proof.
  intros H. unfold dec. rewrite num_dec_go; [simpl; lia|].
  split; [lia|].
  rewrite Nat2Z.inj_succ, Z2Nat.id by apply Z.log2_nonneg.
  destruct (Z.eq_dec n 0) as [->|N]; [reflexivity|].
  pose proof (Z.log2_spec n ltac:(lia)) as [_ U].
  eapply Z.lt_le_trans; [exact U|].
  apply Z.pow_le_mono_l. lia.
Qed.

Lemma dec_go_head fuel : forall n acc,
  0 <= n ->
  exists c r, dec_go (S fuel) n acc = String c r /\ is_digit c = true.
Proof.
  induction fuel as [|fuel IH]; intros n acc H.
  - cbn [dec_go]. destruct (digit_of_mod n H) as [_ D].
    destruct (n <? 10); eauto.
  - cbn [dec_go]. destruct (digit_of_mod n H) as [_ D].
    destruct (n <? 10); [eauto|].
    apply IH. apply Z.div_pos; lia.
Qed.

Lemma int_str_injective i j : int_str i = int_str j -> i = j.
Proof.
  unfold int_str.
  destruct (i <? 0) eqn:I, (j <? 0) eqn:J;
    [apply Z.ltb_lt in I, J|apply Z.ltb_lt in I; apply Z.ltb_ge in J
    |apply Z.ltb_ge in I; apply Z.ltb_lt in J|apply Z.ltb_ge in I, J].
  - intros E. injection E as E. apply (f_equal num) in E.
    rewrite !num_dec in E by lia. lia.
  - unfold dec. destruct (dec_go_head (Z.to_nat (Z.log2 j)) j EmptyString J)
      as (c & r & -> & D).
    intros E. injection E as <- _. discriminate.
  - unfold dec. destruct (dec_go_head (Z.to_nat (Z.log2 i)) i EmptyString I)
      as (c & r & -> & D).
    intros E. injection E as -> _. discriminate.
  - intros E. apply (f_equal num) in E. rewrite !num_dec in E by lia. exact E.
Qed.

(** *** The URL *)

Lemma quote_no_ampersand s :
  all_chars (fun c => negb (Ascii.eqb c "&")) (quote s) = true.
Proof.
  pose proof (quote_alphabet s) as H.
  induction (quote s) as [|c r IH]; [reflexivity|].
  cbn [all_chars] in *. apply andb_true_iff in H as [Hc Hr].
  rewrite (IH Hr), andb_true_r. clear IH Hr. revert Hc.
  destruct c as [[] [] [] [] [] [] [] []]; (discriminate || reflexivity).
Qed.

(** Two texts without [&], each followed by [&] and a rest, are cut at
    the same place. *)
Lemma cut_at_ampersand a : forall a' x y,
  all_chars (fun c => negb (Ascii.eqb c "&")) a = true ->
  all_chars (fun c => negb (Ascii.eqb c "&")) a' = true ->
  (a ++ String "&" x)%string = (a' ++ String "&" y)%string ->
  a = a' /\ x = y.
Proof.
  induction a as [|c a IH]; intros [|c' a'] x y A A' E;
    cbn [String.append all_chars] in *.
  - injection E as ->. auto.
  - injection E as <- _. discriminate.
  - injection E as -> _. discriminate.
  - apply andb_true_iff in A as [_ A]. apply andb_true_iff in A' as [_ A'].
    injection E as -> E. destruct (IH _ _ _ A A' E) as [-> ->]. auto.
Qed.

(** X16. The URL of a request determines the query and the start offset,
    and is determined by them: two requests have the same URL exactly
    when they are made for the same query and the same offset.  The URL
    of the discovery request is the URL of the request for page 0, which
    is thus asked for twice. *)
Theorem url_determines_query_and_offset q i q' j :
  (full_url q i = full_url q' j <-> q = q' /\ i = j)
  /\ full_url q (0 * results_per_page) = full_url q 0.
Proof.
  split; [|reflexivity]. split.
  - unfold full_url. intros H.
    do 2 apply append_cancel_l in H.
    apply cut_at_ampersand in H as [Q I]; try apply quote_no_ampersand.
    split.
    + rewrite <- (unquote_quote q), Q. apply unquote_quote.
    + injection I as I. now apply int_str_injective.
  - intros [-> ->]. reflexivity.
Qed.

(** ** The ranking is determined *)

(** X17. When no extracted score is NaN, the final list is the only
    arrangement of the extracted records that is in descending order of
    score and keeps the records of each score in their extraction order:
    on such records every stable sort gives the list the script ends
    with. *)
Theorem ranking_is_determined fetch cpe_query text total n st l :
  status_code (fetch 0) = 200 ->
  doc_count (content (fetch 0)) = Some text ->
  py_int (replace "," "" text) = Some total ->
  num_pages_of total = Ok n ->
  scrape_nist_cve fetch cpe_query = Ok st ->
  no_nan (extracted fetch n) ->
  Permutation (extracted fetch n) l ->
  descending l ->
  (forall x, with_score x l = with_score x (extracted fetch n)) ->
  all_vulns st = l.
Proof.
  intros S C T N H Nn P D W.
  rewrite (scrape_complete _ _ _ _ _ S C T N) in H.
  destruct (for_each (process_page fetch) (range n)
              (print (MsgTotal total) (get 0 initial))) as [st1|] eqn:P0;
    simpl in H; [|discriminate].
  injection H as <-.
  destruct (report_effect cpe_query st1) as (V & _).
  apply for_each_pages_effect in P0 as (V0 & _).
  rewrite V, V0. symmetry. now apply stable_sort_unique.
Qed.

Lemma ranking_is_determined_witness :
  exists st,
    scrape_nist_cve Fixture.five Fixture.query = Ok st
    /\ all_vulns st = sort_desc (extracted Fixture.five 1).
Proof.
  eexists. split; [vm_compute; reflexivity|].
  apply (ranking_is_determined Fixture.five Fixture.query "5" 5 1);
    try (vm_compute; reflexivity).
  - repeat constructor.
  - apply sort_desc_perm.
  - apply sort_desc_descending. repeat constructor.
  - intros x. apply sort_desc_stable.
Defined.
